(** * unifimacgui: the controller client, the labeller and the entry filter

    A shallow embedding of [src/unifimacgui/client.py], of the pure helper
    [filter_entries] of [src/unifimacgui/gui.py], of [run_cli] of
    [src/unifimacgui/cli.py] and of [resolve_site_code] of
    [docs/oldscript.py].

    Conventions of the model.
    - Text is ASCII: a Python [str] is a [string] whose characters are below
      128.  [upper], [lower] and [strip] are Python's on that range;
      characters from 128 on are left alone and are outside the model.
    - Values decoded from JSON are dynamically typed ([pyval]); an operation
      that Python refuses at run time returns [Raise] with the exception
      Python raises. A JSON number is an integer here: the code only tests a
      number for truth and for not being a string.
    - A JSON object keeps its items in insertion order (an association list
      whose keys are distinct); the dictionaries the code builds itself
      ([mapping], [lookup]) are [gmap]s.
    - The controller and the file system are an explicit [World]: what each
      request answers and what each write does. *)

From Stdlib Require Import ZArith Ascii.
From stdpp Require Import base tactics option list sorting strings pretty gmap.

(** ** Exceptions and the error monad *)

(** The exceptions the code can meet. [JSONDecodeError] is the one of
    [response.json()]; Python derives it from [ValueError], the model keeps
    it apart, so that [ValueError] is here the exception the code raises
    itself. [RequestException] stands for a request that got no response. *)
Inductive exn : Type :=
  | AttributeError
  | TypeError
  | KeyError (key : string)
  | ValueError (msg : string)
  | RuntimeError (msg : string)
  | JSONDecodeError
  | HTTPError (status : nat)
  | RequestException
  | OSError
  | SystemExit (msg : string).

Inductive result (A : Type) : Type :=
  | Ok (a : A)
  | Raise (e : exn).
Arguments Ok {A} a.
Arguments Raise {A} e.

#[global] Instance result_ret : MRet result := @Ok.
#[global] Instance result_bind : MBind result := λ A B f r,
  match r with Ok a => f a | Raise e => Raise e end.

(** A [for] loop that threads an accumulator and stops at the first
    exception. *)
Fixpoint for_each {A S : Type} (body : S → A → result S) (s : S) (l : list A)
    : result S :=
  match l with
  | [] => Ok s
  | x :: l' => s' ← body s x; for_each body s' l'
  end.

(** ** Python strings (ASCII) *)

Definition str_map (f : ascii → ascii) : string → string :=
  fix go s := match s with
              | EmptyString => EmptyString
              | String c s' => String (f c) (go s')
              end.

Definition upper_char (c : ascii) : ascii :=
  let n := nat_of_ascii c in
  if (97 <=? n) && (n <=? 122) then ascii_of_nat (n - 32) else c.

Definition lower_char (c : ascii) : ascii :=
  let n := nat_of_ascii c in
  if (65 <=? n) && (n <=? 90) then ascii_of_nat (n + 32) else c.

(** [str.upper()] and [str.lower()]. *)
Definition upper : string → string := str_map upper_char.
Definition lower : string → string := str_map lower_char.

(** [str.isspace()] on one character: TAB, LF, VT, FF, CR, FS, GS, RS, US
    and the space. *)
Definition is_space (c : ascii) : bool :=
  let n := nat_of_ascii c in
  ((9 <=? n) && (n <=? 13)) || ((28 <=? n) && (n <=? 32)).

Fixpoint lstrip (s : string) : string :=
  match s with
  | EmptyString => EmptyString
  | String c s' => if is_space c then lstrip s' else s
  end.

Fixpoint rstrip (s : string) : string :=
  match s with
  | EmptyString => EmptyString
  | String c s' =>
      match rstrip s' with
      | EmptyString => if is_space c then EmptyString else String c EmptyString
      | r => String c r
      end
  end.

(** [str.strip()]. *)
Definition strip (s : string) : string := rstrip (lstrip s).

(** [s.rstrip("/")]. *)
Fixpoint rstrip_slash (s : string) : string :=
  match s with
  | EmptyString => EmptyString
  | String c s' =>
      match rstrip_slash s' with
      | EmptyString => if Ascii.eqb c "/" then EmptyString else String c EmptyString
      | r => String c r
      end
  end.

(** [needle in hay] on strings. *)
Fixpoint contains (hay needle : string) : bool :=
  String.prefix needle hay ||
  match hay with
  | EmptyString => false
  | String _ hay' => contains hay' needle
  end.

(** [sep.join(parts)]. *)
Definition join (sep : string) (parts : list string) : string :=
  String.concat sep parts.

(** [s.ljust(width)]. *)
Definition ljust (s : string) (width : nat) : string :=
  s +:+ String.string_of_list_ascii (replicate (width - String.length s) " "%char).

(** [not s] and [bool(s)] on a string. *)
Definition str_truthy (s : string) : bool :=
  match s with EmptyString => false | _ => true end.

(** ** Dynamically typed values *)

#[warnings="-register-all"]
Inductive pyval : Type :=
  | PNone
  | PBool (b : bool)
  | PNum (n : Z)
  | PStr (s : string)
  | PList (items : list pyval)
  | PDict (fields : list (string * pyval)).

Abbreviation pydict := (list (string * pyval)).

(** Python's truth value. *)
Definition truthy (v : pyval) : bool :=
  match v with
  | PNone => false
  | PBool b => b
  | PNum n => negb (n =? 0)%Z
  | PStr s => str_truthy s
  | PList l => match l with [] => false | _ => true end
  | PDict d => match d with [] => false | _ => true end
  end.

(** [a or b]. *)
Definition py_or (a b : pyval) : pyval := if truthy a then a else b.

Fixpoint dict_lookup (k : string) (d : pydict) : option pyval :=
  match d with
  | [] => None
  | (k', v) :: d' => if String.eqb k k' then Some v else dict_lookup k d'
  end.

(** [d.get(k)] and [d.get(k, dflt)] on a [dict]. *)
Definition dict_get (d : pydict) (k : string) : pyval :=
  default PNone (dict_lookup k d).
Definition dict_get_or (d : pydict) (k : string) (dflt : pyval) : pyval :=
  default dflt (dict_lookup k d).

(** [v.get]: only a [dict] has the attribute. *)
Definition as_dict (v : pyval) : result pydict :=
  match v with PDict d => Ok d | _ => Raise AttributeError end.

(** [v.upper()] and [v.lower()]: only a [str] has them. *)
Definition py_upper (v : pyval) : result string :=
  match v with PStr s => Ok (upper s) | _ => Raise AttributeError end.
Definition py_lower (v : pyval) : result string :=
  match v with PStr s => Ok (lower s) | _ => Raise AttributeError end.

Fixpoint chars (s : string) : list string :=
  match s with
  | EmptyString => []
  | String c s' => String c EmptyString :: chars s'
  end.

(** [iter(v)], as [for x in v] and [list(v)] use it. *)
Definition py_iter (v : pyval) : result (list pyval) :=
  match v with
  | PList l => Ok l
  | PStr s => Ok (PStr <$> chars s)
  | PDict d => Ok (PStr <$> d.*1)
  | PNone | PBool _ | PNum _ => Raise TypeError
  end.

(** ** Sorting: [list.sort(key=...)] and [sorted]

    A stable insertion sort on string keys, compared by code point as Python
    compares [str]. *)

Fixpoint insert_by {A : Type} (key : A → string) (x : A) (l : list A) : list A :=
  match l with
  | [] => [x]
  | y :: l' =>
      if String.ltb (key y) (key x) then y :: insert_by key x l'
      else x :: y :: l'
  end.

Definition sort_by {A : Type} (key : A → string) (l : list A) : list A :=
  foldr (insert_by key) [] l.

(** ** The controller seen from the client *)

(** What a request comes to: the call raises (no connection, timeout), or a
    response arrives with its status and its body, [None] when the body is no
    JSON text. *)
Inductive http_outcome : Type :=
  | NoResponse
  | Response (status : nat) (body : option pyval).

(** The world around one run: the controller's answer to the login [POST]
    (address, user name, password) and to each [GET] (address), what the
    user types at the password prompt, what writing a file does, and pandas'
    [to_excel] when pandas can be imported. *)
Record World : Type := {
  http_post_login : string → string → string → http_outcome;
  http_get : string → http_outcome;
  getpass : string;
  write_text : string → string → result unit;
  write_csv : string → list (list string) → result unit;
  pandas_to_excel : option (string → list string → list string → result unit)
}.

(** The request itself may raise; [response.raise_for_status()] raises on a
    4xx or 5xx status. *)
Definition raise_for_status (r : http_outcome) : result (option pyval) :=
  match r with
  | NoResponse => Raise RequestException
  | Response status body =>
      if (400 <=? status) && (status <? 600) then Raise (HTTPError status)
      else Ok body
  end.

(** [response.json().get("data", [])]. *)
Definition response_data (body : option pyval) : result pyval :=
  match body with
  | None => Raise JSONDecodeError
  | Some v => d ← as_dict v; Ok (dict_get_or d "data" (PList []))
  end.

(** The three steps every fetch starts with: [session.get(url)],
    [raise_for_status()] and [json().get("data", [])]. *)
Definition get_data (w : World) (url : string) : result pyval :=
  body ← raise_for_status (http_get w url);
  response_data body.

(** ** client.py *)

(** A [Site] as [fetch_sites] returns it. The dataclass checks no type: the
    code is whatever the record held; the description is a [str], since the
    sort has called [lower()] on it (see [site_checked]). *)
Record Site : Type := { code : pyval; description : string }.

(** A [WlanProfile] as [fetch_wlans] returns it: the name is a [str], since
    the sort has called [lower()] on it (see [wlan_checked]); the filter list
    holds whatever the record listed. *)
Record WlanProfile : Type := { name : string; mac_filter_list : list pyval }.

Record UniFiClient : Type := { base_url : string; verify_ssl : bool; timeout : Z }.

(** [UniFiClient.__init__]. *)
Definition new_client (url : string) (verify : bool) (t : Z) : UniFiClient :=
  {| base_url := rstrip_slash url; verify_ssl := verify; timeout := t |}.

Definition login (w : World) (c : UniFiClient) (username password : string)
    : result unit :=
  _ ← raise_for_status (http_post_login w (base_url c +:+ "/api/login") username password);
  Ok ().

(** The two constructor arguments of [Site(...)] for one record of the
    response: [item.get("name", "")] and
    [item.get("desc") or item.get("name", "")]. *)
Definition site_fields (item : pyval) : result (pyval * pyval) :=
  d ← as_dict item;
  Ok (dict_get_or d "name" (PStr ""),
      py_or (dict_get d "desc") (dict_get_or d "name" (PStr ""))).

(** The sort key [s.description.lower()] is computed for every site before
    any comparison; it needs a [str], so a site that is returned has one. *)
Definition site_checked (f : pyval * pyval) : result Site :=
  match f.2 with
  | PStr s => Ok {| code := f.1; description := s |}
  | _ => Raise AttributeError
  end.

(** [fetch_sites] from the [data] of the response on: the comprehension,
    then the sort by [description.lower()]. *)
Definition sites_of_data (data : pyval) : result (list Site) :=
  items ← py_iter data;
  raw ← mapM site_fields items;
  sites ← mapM site_checked raw;
  Ok (sort_by (λ s, lower (description s)) sites).

Definition sites_url (c : UniFiClient) : string := base_url c +:+ "/api/self/sites".

Definition fetch_sites (w : World) (c : UniFiClient) : result (list Site) :=
  data ← get_data w (sites_url c);
  sites_of_data data.

(** The body of the loop of [fetch_wlans]: the name as it was received and
    [list(item.get("mac_filter_list") or [])]. *)
Definition wlan_fields (item : pyval) : result (pyval * list pyval) :=
  d ← as_dict item;
  macs ← py_iter (py_or (dict_get d "mac_filter_list") (PList []));
  Ok (dict_get_or d "name" (PStr ""), macs).

(** As for sites: the sort key [w.name.lower()] needs a [str]. *)
Definition wlan_checked (f : pyval * list pyval) : result WlanProfile :=
  match f.1 with
  | PStr s => Ok {| name := s; mac_filter_list := f.2 |}
  | _ => Raise AttributeError
  end.

(** [fetch_wlans] from the [data] of the response on: the loop, then the
    sort by [name.lower()]. *)
Definition wlans_of_data (data : pyval) : result (list WlanProfile) :=
  items ← py_iter data;
  raw ← mapM wlan_fields items;
  wlans ← mapM wlan_checked raw;
  Ok (sort_by (λ w, lower (name w)) wlans).

Definition wlanconf_url (c : UniFiClient) (site_code : string) : string :=
  base_url c +:+ "/api/s/" +:+ site_code +:+ "/rest/wlanconf".

Definition fetch_wlans (w : World) (c : UniFiClient) (site_code : string)
    : result (list WlanProfile) :=
  data ← get_data w (wlanconf_url c site_code);
  wlans_of_data data.

(** The fields [_pick_name] tries, in its order. *)
Definition name_keys : list string := ["name"; "hostname"; "usergroup_name"; "oui"].

(** [isinstance(value, str) and value.strip()], and the value returned. *)
Definition usable_name (v : pyval) : option string :=
  match v with
  | PStr s => if str_truthy (strip s) then Some (strip s) else None
  | _ => None
  end.

Fixpoint pick_first (device : pydict) (keys : list string) : option string :=
  match keys with
  | [] => None
  | key :: keys' =>
      match usable_name (dict_get device key) with
      | Some n => Some n
      | None => pick_first device keys'
      end
  end.

Definition _pick_name (device : pydict) : option string :=
  pick_first device name_keys.

(** [(device.get("mac") or "").upper()]. *)
Definition device_mac (d : pydict) : result string :=
  py_upper (py_or (dict_get d "mac") (PStr "")).

(** One turn of the loop of [fetch_known_devices]. *)
Definition known_device_step (mapping : gmap string string) (device : pyval)
    : result (gmap string string) :=
  d ← as_dict device;
  mac ← device_mac d;
  if negb (str_truthy mac) then Ok mapping
  else match _pick_name d with
       | Some nm => if str_truthy nm then Ok (<[mac := nm]> mapping) else Ok mapping
       | None => Ok mapping
       end.

(** [fetch_known_devices] from the [data] of the response on. *)
Definition known_devices_of_data (data : pyval) : result (gmap string string) :=
  devices ← py_iter data;
  for_each known_device_step ∅ devices.

Definition alluser_url (c : UniFiClient) (site_code : string) : string :=
  base_url c +:+ "/api/s/" +:+ site_code +:+ "/stat/alluser".

Definition fetch_known_devices (w : World) (c : UniFiClient) (site_code : string)
    : result (gmap string string) :=
  data ← get_data w (alluser_url c site_code);
  known_devices_of_data data.

(** [{wlan.name: wlan for wlan in wlans}]: a later profile replaces an
    earlier one of the same name. *)
Definition wlan_lookup (wlans : list WlanProfile) : gmap string WlanProfile :=
  foldl (λ m wlan, <[name wlan := wlan]> m) ∅ wlans.

(** [sorted(lookup)]: the keys, which are distinct, in ascending order. *)
Definition sorted_keys {V : Type} (m : gmap string V) : list string :=
  sort_by id (map_to_list m).*1.

(** The message of the [ValueError] of [fetch_mac_filter_details]. *)
Definition wlan_not_found (wlan_name : string) (available : list string) : string :=
  "WLAN '" +:+ wlan_name +:+ "' not found. Available: " +:+ join ", " available.

(** [fetch_mac_filter_details] after [fetch_wlans] has returned [wlans];
    [known] is the call of [fetch_known_devices], made only when the name is
    found. *)
Definition mac_filter_details_of (wlans : list WlanProfile) (wlan_name : string)
    (known : result (gmap string string))
    : result (WlanProfile * gmap string string) :=
  let lookup := wlan_lookup wlans in
  match lookup !! wlan_name with
  | None => Raise (ValueError (wlan_not_found wlan_name (sorted_keys lookup)))
  | Some wlan => known_devices ← known; Ok (wlan, known_devices)
  end.

Definition fetch_mac_filter_details (w : World) (c : UniFiClient)
    (site_code wlan_name : string) : result (WlanProfile * gmap string string) :=
  wlans ← fetch_wlans w c site_code;
  mac_filter_details_of wlans wlan_name (fetch_known_devices w c site_code).

(** [label_mac_addresses]: [mac.upper()] needs a [str]. *)
Definition label_step (known_devices : gmap string string)
    (labelled : list (string * string)) (mac : pyval)
    : result (list (string * string)) :=
  normalised ← py_upper mac;
  let label := default "Unknown" (known_devices !! normalised) in
  Ok (labelled ++ [(normalised, label)]).

Definition label_mac_addresses (macs : list pyval) (known_devices : gmap string string)
    : result (list (string * string)) :=
  for_each (label_step known_devices) [] macs.

(** ** gui.py: [filter_entries] *)

Definition entry_matches (needle : string) (e : string * string) : bool :=
  contains (lower e.1) needle || contains (lower e.2) needle.

Definition filter_entries (entries : list (string * string)) (term : string)
    : list (string * string) :=
  if negb (str_truthy term) then entries
  else
    let needle := lower term in
    foldl (λ filtered e, if entry_matches needle e then filtered ++ [e] else filtered)
          [] entries.

(** ** cli.py *)

Record Args : Type := {
  arg_url : option string;
  arg_user : option string;
  arg_password : option string;
  arg_site : option string;
  arg_wlan : option string;
  arg_out : option string;
  arg_format : string;
  arg_verify_ssl : bool;
  arg_timeout : Z
}.

(** The truth value of an option of the command line: absent ([None]) and
    empty are both false. *)
Definition given (a : option string) : bool :=
  match a with Some s => str_truthy s | None => false end.

Definition ensure_cli_args (args : Args) : result unit :=
  let missing :=
    (filter (λ p, given p.2 = false)
       [("url", arg_url args); ("user", arg_user args);
        ("site", arg_site args); ("wlan", arg_wlan args)]).*1 in
  match missing with
  | [] => Ok ()
  | _ => Raise (SystemExit ("Missing required arguments: "
                            +:+ join ", " ((λ flag, "--" +:+ flag) <$> missing)))
  end.

Definition prompt_password (w : World) (args : Args) : string :=
  if given (arg_password args) then default EmptyString (arg_password args) else getpass w.

Definition TAB : string := String (ascii_of_nat 9) EmptyString.
Definition LF : string := String (ascii_of_nat 10) EmptyString.

Definition export_results (w : World) (entries : list (string * string))
    (outfile fmt : string) : result unit :=
  let fmt := lower fmt in
  if String.eqb fmt "txt" then
    write_text w outfile (join LF ((λ e, e.1 +:+ TAB +:+ e.2) <$> entries))
  else if String.eqb fmt "csv" then
    write_csv w outfile (["MAC"; "Name"] :: ((λ e, [e.1; e.2]) <$> entries))
  else if String.eqb fmt "xlsx" then
    match pandas_to_excel w with
    | None => Raise (RuntimeError
        "pandas and openpyxl are required for XLSX export. Install them via 'pip install pandas openpyxl'.")
    | Some to_excel => to_excel outfile entries.*1 entries.*2
    end
  else Raise (ValueError ("Unsupported export format: " +:+ fmt)).

(** What the program prints, one item per [print]; the text of
    [f"Error: {exc}"] is the library's, so the line keeps the exception. *)
Inductive printed : Type :=
  | Line (text : string)
  | ErrorLine (exc : exn).

Definition dashes (n : nat) : string :=
  String.string_of_list_ascii (replicate n "-"%char).

Definition print_table (entries : list (string * string)) : list printed :=
  match entries with
  | [] => [Line "No MAC addresses found."]
  | _ =>
      let mac_width := max_list (String.length <$> entries.*1) in
      let name_width := max_list (String.length <$> entries.*2) in
      Line (ljust "MAC" mac_width +:+ "  " +:+ ljust "Name" name_width)
      :: Line (dashes mac_width +:+ "  " +:+ dashes name_width)
      :: ((λ e, Line (ljust e.1 mac_width +:+ "  " +:+ ljust e.2 name_width)) <$> entries)
  end.

(** [except Exception] lets [SystemExit] through. *)
Definition is_Exception (e : exn) : bool :=
  match e with SystemExit _ => false | _ => true end.

(** [UniFiClient(args.url, verify_ssl=args.verify_ssl, timeout=args.timeout)]. *)
Definition cli_client (args : Args) : UniFiClient :=
  new_client (default EmptyString (arg_url args)) (arg_verify_ssl args) (arg_timeout args).

(** [run_cli] after the parser: what was printed, and the value returned or
    the exception that escaped. *)
Definition run_cli (w : World) (args : Args) : list printed * result Z :=
  match ensure_cli_args args with
  | Raise e => ([], Raise e)
  | Ok _ =>
      let password := prompt_password w args in
      let client := cli_client args in
      let fetched :=
        _ ← login w client (default EmptyString (arg_user args)) password;
        fetch_mac_filter_details w client (default EmptyString (arg_site args))
                                 (default EmptyString (arg_wlan args)) in
      match fetched with
      | Raise e => if is_Exception e then ([ErrorLine e], Ok 1%Z) else ([], Raise e)
      | Ok (wlan, known_devices) =>
          match label_mac_addresses (mac_filter_list wlan) known_devices with
          | Raise e => ([], Raise e)
          | Ok labelled =>
              if given (arg_out args) then
                let out := default EmptyString (arg_out args) in
                match export_results w labelled out (arg_format args) with
                | Raise e => ([], Raise e)
                | Ok _ =>
                    ([Line ("Exported " +:+ pretty (length labelled) +:+ " entries to "
                            +:+ out +:+ " (" +:+ arg_format args +:+ ").")], Ok 0%Z)
                end
              else (print_table labelled, Ok 0%Z)
          end
      end
  end.

(** ** docs/oldscript.py: [resolve_site_code] *)

(** [v[k]] with a string key. *)
Definition py_subscript (v : pyval) (k : string) : result pyval :=
  match v with
  | PDict d => match dict_lookup k d with
               | Some x => Ok x
               | None => Raise (KeyError k)
               end
  | _ => Raise TypeError
  end.

Definition hex_digit (n : nat) : ascii :=
  default "0"%char (String.list_ascii_of_string "0123456789abcdef" !! n).

Definition backslash : ascii := ascii_of_nat 92.
Definition double_quote : ascii := ascii_of_nat 34.
Definition single_quote : ascii := ascii_of_nat 39.

(** [repr] of a [str]: single quotes unless the text has a single quote and
    no double quote; the quote and the backslash are escaped, control
    characters are written [\t], [\n], [\r] or [\xNN]. *)
Definition repr_char (quote : ascii) (c : ascii) : string :=
  let n := nat_of_ascii c in
  if Ascii.eqb c quote || Ascii.eqb c backslash then String backslash (String c EmptyString)
  else if n =? 9 then String backslash "t"
  else if n =? 10 then String backslash "n"
  else if n =? 13 then String backslash "r"
  else if (n <? 32) || (n =? 127) then
    String backslash
      (String "x" (String (hex_digit (n / 16)) (String (hex_digit (n mod 16)) EmptyString)))
  else String c EmptyString.

Definition py_repr_str (s : string) : string :=
  let cs := String.list_ascii_of_string s in
  let quote : ascii :=
    if bool_decide (single_quote ∈ cs) && negb (bool_decide (double_quote ∈ cs))
    then double_quote else single_quote in
  String quote (foldr (λ c acc, repr_char quote c +:+ acc) (String quote EmptyString) cs).

Definition py_repr_list (l : list string) : string :=
  "[" +:+ join ", " (py_repr_str <$> l) +:+ "]".

(** The loop over the sites: [Ok (inl code)] when a site matched (the
    [return]), [Ok (inr descs)] when the loop ran to its end, with the
    descriptions it has seen. *)
Fixpoint resolve_loop (hint_lower : string) (sites : list pyval) (seen : list string)
    : result (string + list string) :=
  match sites with
  | [] => Ok (inr seen)
  | site :: sites' =>
      desc ← py_subscript site "desc";
      desc_l ← py_lower desc;
      nm ← py_subscript site "name";
      nm_l ← py_lower nm;
      if String.eqb hint_lower desc_l || String.eqb hint_lower nm_l
      then match nm with PStr s => Ok (inl s) | _ => Raise AttributeError end
      else match desc with
           | PStr d => resolve_loop hint_lower sites' (seen ++ [d])
           | _ => Raise AttributeError
           end
  end.

(** The message of the [ValueError] of [resolve_site_code]. *)
Definition site_not_found (site_hint : string) (descs : list string) : string :=
  "Site '" +:+ site_hint +:+ "' not found. Available: " +:+ py_repr_list descs.

(** [resolve_site_code(session, url, site_hint)]; [resp.json()["data"]]
    needs a [dict] that has the key. *)
Definition resolve_site_code (w : World) (url site_hint : string) : result string :=
  body ← raise_for_status (http_get w (url +:+ "/api/self/sites"));
  json ← match body with Some v => Ok v | None => Raise JSONDecodeError end;
  data ← py_subscript json "data";
  sites ← py_iter data;
  r ← resolve_loop (lower site_hint) sites [];
  match r with
  | inl site_code => Ok site_code
  | inr descs => Raise (ValueError (site_not_found site_hint descs))
  end.

(** ** The vocabulary of the properties *)

(** The label the code gives one normalised address. *)
Definition label_of (K : gmap string string) (mac : string) : string :=
  default "Unknown" (K !! upper mac).

(** [T] is a case-insensitive substring of [s]: some stretch of [s] is [T]
    up to the case of its letters. *)
Definition ci_substring (T s : string) : Prop :=
  ∃ pre mid post, s = pre +:+ mid +:+ post ∧ lower mid = lower T.

(** A field qualifies as a display name: it is a string that is not empty
    once trimmed. *)
Definition qualifies (v : pyval) : Prop :=
  ∃ s, v = PStr s ∧ strip s ≠ EmptyString.

(** Where an entry of the mapping comes from. *)
Definition from_roster (devices : list pyval) (k nm : string) : Prop :=
  k ≠ EmptyString ∧ nm ≠ EmptyString
  ∧ ∃ d s, PDict d ∈ devices ∧ dict_get d "mac" = PStr s ∧ upper s = k
           ∧ _pick_name d = Some nm.

(** The order of [list.sort(key=key)]: keys ascending. *)
Definition key_le {A : Type} (key : A → string) (x y : A) : Prop :=
  String.le (key x) (key y).

(** The exception is no [ValueError]. *)
Definition not_ValueError (e : exn) : Prop := ∀ msg, e ≠ ValueError msg.

(** The record has no [mac_filter_list], or a null one. *)
Definition lacks_filter_list (d : pydict) : Prop :=
  dict_lookup "mac_filter_list" d = None ∨ dict_lookup "mac_filter_list" d = Some PNone.

(** A record [fetch_wlans] accepts: an object whose [name] is a string (or
    is absent) and whose [mac_filter_list] is false or can be iterated. *)
Definition wlan_record_ok (item : pyval) : Prop :=
  ∃ d n macs, item = PDict d
    ∧ dict_get_or d "name" (PStr EmptyString) = PStr n
    ∧ py_iter (py_or (dict_get d "mac_filter_list") (PList [])) = Ok macs.



(** The world [w], but for the answer to the request for the sites of [c],
    which is [r]. *)
Definition with_sites_answer (w : World) (c : UniFiClient) (r : http_outcome) : World :=
  {| http_post_login := http_post_login w;
     http_get := λ url, if String.eqb url (sites_url c) then r else http_get w url;
     getpass := getpass w;
     write_text := write_text w;
     write_csv := write_csv w;
     pandas_to_excel := pandas_to_excel w |}.

(** ** Sample controllers and command lines *)

(** A roster of four devices: one with a lower-case MAC and a host name, one
    without a MAC, one with an empty MAC, one with no usable name. *)
Definition sample_roster : pyval :=
  PList [PDict [("mac", PStr "aa:bb:cc:dd:ee:ff"); ("hostname", PStr "laptop")];
         PDict [("hostname", PStr "ghost")];
         PDict [("mac", PStr EmptyString); ("name", PStr "nobody")];
         PDict [("mac", PStr "11:22:33:44:55:66"); ("oui", PNone)]].

(** The WLAN records of the examples: [Guest] has no filter list and [Lab] a
    null one. *)
Definition demo_wlan_records : list pyval :=
  [PDict [("name", PStr "Office");
          ("mac_filter_list", PList [PStr "aa:bb:cc:dd:ee:ff"; PStr "77:88:99:aa:bb:cc"])];
   PDict [("name", PStr "Guest")];
   PDict [("name", PStr "Lab"); ("mac_filter_list", PNone)]].

(** A controller that accepts every login and answers the [GET] requests
    as [get] says; every write succeeds, pandas is not installed. *)
Definition sample_world (get : string → http_outcome) : World :=
  {| http_post_login := λ _ _ _, Response 200 None;
     http_get := get;
     getpass := "secret";
     write_text := λ _ _, Ok ();
     write_csv := λ _ _, Ok ();
     pandas_to_excel := None |}.

(** A controller that knows the roster of the site [default] only. *)
Definition roster_world : World :=
  sample_world (λ url,
    if String.eqb url "https://ctl:8443/api/s/default/stat/alluser"
    then Response 200 (Some (PDict [("data", sample_roster)]))
    else Response 404 None).

(** Two sites, the second without a description. *)
Definition sites_world : World :=
  sample_world (λ url,
    if String.eqb url "https://ctl:8443/api/self/sites"
    then Response 200 (Some (PDict [("data",
           PList [PDict [("name", PStr "default"); ("desc", PStr "Main Office")];
                  PDict [("name", PStr "b7x2k"); ("desc", PNone)]])]))
    else Response 404 None).

(** The controller of the examples. *)
Definition demo_world : World :=
  sample_world (λ url,
    if String.eqb url "https://ctl:8443/api/self/sites" then
      Response 200 (Some (PDict [("data",
        PList [PDict [("name", PStr "default"); ("desc", PStr "Main Office")]])]))
    else if String.eqb url "https://ctl:8443/api/s/default/rest/wlanconf" then
      Response 200 (Some (PDict [("data", PList demo_wlan_records)]))
    else if String.eqb url "https://ctl:8443/api/s/default/stat/alluser" then
      Response 200 (Some (PDict [("data", sample_roster)]))
    else Response 404 None).

(** [--url https://ctl:8443/ --user admin --site <site> --wlan <wlan>], and
    [--out] when given. *)
Definition demo_args (site wlan : string) (out : option string) : Args :=
  {| arg_url := Some "https://ctl:8443/"; arg_user := Some "admin";
     arg_password := None; arg_site := Some site; arg_wlan := Some wlan;
     arg_out := out; arg_format := "txt"; arg_verify_ssl := false;
     arg_timeout := 10 |}.

(** ** docs/oldscript.py: [main]

    The legacy script after its argument parser. [export_list] writes
    files; it is a parameter here: what it does with the addresses, the file
    name and the format is the world's. *)

Record OldArgs : Type := {
  old_url : string;
  old_user : string;
  old_password : option string;
  old_site : string;
  old_wlan : string;
  old_out : string;
  old_format : string
}.

(** What the legacy script prints, one item per [print]. The lines that
    show an exception keep the exception, the notice of the export keeps
    its three values. *)
Inductive old_printed : Type :=
  | OldLoginFailed (exc : exn)
  | OldException (exc : exn)
  | OldLine (text : string)
  | OldExportFailed (exc : exn)
  | OldExported (count : nat) (outfile fmt : string).

(** [except ValueError] also catches the [JSONDecodeError] of
    [response.json()], which Python derives from it. *)
Definition is_ValueError (e : exn) : bool :=
  match e with ValueError _ | JSONDecodeError => true | _ => false end.

(** [v == s] for a string [s]. *)
Definition py_eq_str (v : pyval) (s : string) : bool :=
  match v with PStr t => String.eqb t s | _ => false end.

(** [len(v)]. *)
Definition py_len (v : pyval) : result nat :=
  match v with
  | PList l => Ok (length l)
  | PStr s => Ok (String.length s)
  | PDict d => Ok (length d)
  | PNone | PBool _ | PNum _ => Raise TypeError
  end.

(** [next((w for w in wlans if w.get("name") == wlan), None)]: the
    generator stops at the first match and does not look at what follows. *)
Fixpoint old_find_wlan (wlans : list pyval) (wlan : string) : result (option pydict) :=
  match wlans with
  | [] => Ok None
  | w :: wlans' =>
      d ← as_dict w;
      if py_eq_str (dict_get d "name") wlan then Ok (Some d)
      else old_find_wlan wlans' wlan
  end.

(** [login(session, url, username, password)] of the legacy script. *)
Definition old_login (w : World) (url username password : string) : result unit :=
  _ ← raise_for_status (http_post_login w (url +:+ "/api/login") username password);
  Ok ().

(** [resp.json()["data"]] of the request for the WLANs, and its records. *)
Definition old_wlan_records (w : World) (url site_code : string) : result (list pyval) :=
  body ← raise_for_status (http_get w (url +:+ "/api/s/" +:+ site_code +:+ "/rest/wlanconf"));
  json ← match body with Some v => Ok v | None => Raise JSONDecodeError end;
  wlans ← py_subscript json "data";
  py_iter wlans.

Section old_main.
Variable export_list : pyval → string → string → result unit.

(** The end of [main], from the WLAN that was found on: what is printed, and
    the exit status ([sys.exit], or 0 when [main] returns) or the exception
    that escapes. *)
Definition old_export (args : OldArgs) (target : pydict) : list old_printed * result Z :=
  let macs := dict_get_or target "mac_filter_list" (PList []) in
  if negb (truthy macs) then
    ([OldLine ("No MAC addresses found for WLAN '" +:+ old_wlan args +:+ "'.")], Ok 0%Z)
  else
    match export_list macs (old_out args) (old_format args) with
    | Raise e => if is_Exception e then ([OldExportFailed e], Ok 1%Z) else ([], Raise e)
    | Ok _ =>
        match py_len macs with
        | Raise e => ([], Raise e)
        | Ok n => ([OldExported n (old_out args) (upper (old_format args))], Ok 0%Z)
        end
    end.

Definition old_main (w : World) (args : OldArgs) : list old_printed * result Z :=
  let password :=
    if given (old_password args) then default EmptyString (old_password args)
    else getpass w in
  match old_login w (old_url args) (old_user args) password with
  | Raise e => if is_Exception e then ([OldLoginFailed e], Ok 1%Z) else ([], Raise e)
  | Ok _ =>
      match resolve_site_code w (old_url args) (old_site args) with
      | Raise e => if is_ValueError e then ([OldException e], Ok 1%Z) else ([], Raise e)
      | Ok site_code =>
          match old_wlan_records w (old_url args) site_code with
          | Raise e => ([], Raise e)
          | Ok wlans =>
              match old_find_wlan wlans (old_wlan args) with
              | Raise e => ([], Raise e)
              | Ok None =>
                  ([OldLine ("WLAN '" +:+ old_wlan args +:+ "' not found in site '"
                             +:+ old_site args +:+ "'.")], Ok 1%Z)
              | Ok (Some target) => old_export args target
              end
          end
      end
  end.
End old_main.

(** ** gui.py: the table *)

(** The rows of the table after [_refresh_table]: the tree is emptied and
    gets one row per entry of
    [filter_entries(self._all_entries, self.search_var.get().strip())]. *)
Definition refresh_table_rows (all_entries : list (string * string)) (search : string)
    : list (string * string) :=
  filter_entries all_entries (strip search).

(** ** The vocabulary of the further properties *)

(** The entry a device record gives the mapping: its upper-cased MAC and its
    display name, when the MAC is a non-empty string and a name can be
    picked. *)
Definition device_entry (device : pyval) : option (string * string) :=
  match device with
  | PDict d =>
      match dict_get d "mac", _pick_name d with
      | PStr s, Some nm => if str_truthy s then Some (upper s, nm) else None
      | _, _ => None
      end
  | _ => None
  end.

(** A device record the loop of [fetch_known_devices] gets through: an
    object whose [mac] is false (missing, null, empty) or a string. *)
Definition device_ok (device : pyval) : Prop :=
  ∃ d, device = PDict d
       ∧ (truthy (dict_get d "mac") = false ∨ ∃ s, dict_get d "mac" = PStr s).

(** The value is a string. *)
Definition is_str (v : pyval) : Prop := ∃ s, v = PStr s.

(** The exceptions of a fetch: of the request, of the status, of the body
    and of the shape of the data. *)
Definition fetch_error (e : exn) : Prop :=
  e = RequestException ∨ (∃ status, e = HTTPError status ∧ 400 ≤ status < 600)
  ∨ e = JSONDecodeError ∨ e = AttributeError ∨ e = TypeError.

(** Every character of the text is white space. *)
Definition all_space (s : string) : Prop :=
  Forall (λ c, is_space c = true) (String.list_ascii_of_string s).

(** The text neither starts nor ends with white space. *)
Definition trimmed (s : string) : Prop :=
  (∀ c t, s = String c t → is_space c = false)
  ∧ (∀ t c, s = t +:+ String c EmptyString → is_space c = false).

(** [n] times the slash. *)
Definition slashes (n : nat) : string :=
  String.string_of_list_ascii (replicate n "/"%char).

(** What [run_cli] does inside its [try]: the login, then the fetch. *)
Definition cli_fetch (w : World) (args : Args) : result (WlanProfile * gmap string string) :=
  _ ← login w (cli_client args) (default EmptyString (arg_user args)) (prompt_password w args);
  fetch_mac_filter_details w (cli_client args) (default EmptyString (arg_site args))
                           (default EmptyString (arg_wlan args)).

(** The text of a printed line, when it is no error line. *)
Definition line_text (p : printed) : option string :=
  match p with Line t => Some t | ErrorLine _ => None end.

(** The world [w], but for the answer to the [GET] of [url], which is [r]. *)
Definition with_answer (w : World) (url : string) (r : http_outcome) : World :=
  {| http_post_login := http_post_login w;
     http_get := λ u, if String.eqb u url then r else http_get w u;
     getpass := getpass w;
     write_text := write_text w;
     write_csv := write_csv w;
     pandas_to_excel := pandas_to_excel w |}.

(** [--url https://ctl:8443/ --user admin --site default --wlan Office
    --out <out> --format <fmt>]. *)
Definition demo_export_args (out fmt : string) : Args :=
  {| arg_url := Some "https://ctl:8443/"; arg_user := Some "admin";
     arg_password := None; arg_site := Some "default"; arg_wlan := Some "Office";
     arg_out := Some out; arg_format := fmt; arg_verify_ssl := false;
     arg_timeout := 10 |}.

(** The record is an object whose [name] is not the string [n]. *)
Definition other_name (n : string) (v : pyval) : Prop :=
  ∃ d, v = PDict d ∧ dict_get d "name" ≠ PStr n.

(** A command line of the legacy script for the controller of the examples. *)
Definition demo_old_args (site wlan : string) : OldArgs :=
  {| old_url := "https://ctl:8443"; old_user := "admin"; old_password := None;
     old_site := site; old_wlan := wlan; old_out := "mac_export.txt";
     old_format := "txt" |}.

(** * Properties *)

(** ** Strings *)

Section strings.
Implicit Types (s t u : string) (c : ascii).

Lemma app_cons c s t : String c s +:+ t = String c (s +:+ t).
Proof. reflexivity. Qed.

Lemma str_map_app f s t : str_map f (s +:+ t) = str_map f s +:+ str_map f t.
Proof. induction s as [|c s IH]; [done|]. rewrite app_cons. simpl. by rewrite IH. Qed.

(** A character-wise image splits where its source splits. *)
Lemma str_map_app_inv f s t u :
  str_map f s = t +:+ u →
  ∃ s1 s2, s = s1 +:+ s2 ∧ str_map f s1 = t ∧ str_map f s2 = u.
Proof.
  revert s. induction t as [|c t IH]; intros s Hs.
  - by exists EmptyString, s.
  - destruct s as [|c' s]; [done|]. rewrite app_cons in Hs. simpl in Hs.
    injection Hs as Hc Hs. destruct (IH _ Hs) as (s1 & s2 & -> & <- & <-).
    exists (String c' s1), s2. by rewrite <-Hc.
Qed.

Lemma prefix_spec t s :
  String.prefix t s = true ↔ ∃ u, s = t +:+ u.
Proof.
  revert s. induction t as [|c t IH]; intros s.
  - split; [intros _; by exists s|intros _; by destruct s].
  - destruct s as [|c' s]; simpl.
    + split; [done|]. by intros [u ?].
    + destruct (ascii_dec c c') as [->|Hne]; simpl.
      * rewrite IH. split; intros [u Hu]; exists u.
        -- by rewrite app_cons, <-Hu.
        -- rewrite app_cons in Hu. by injection Hu.
      * split; [done|]. intros [u Hu]. rewrite app_cons in Hu. by injection Hu.
Qed.

(** [needle in hay] holds exactly when [hay] is some text, [needle], some
    text. *)
Lemma contains_spec s t :
  contains s t = true ↔ ∃ pre post, s = pre +:+ t +:+ post.
Proof.
  induction s as [|c s IH]; cbn [contains].
  - rewrite orb_false_r, prefix_spec. split.
    + intros [u Hu]. by exists EmptyString, u.
    + intros ([|??] & post & Hs); [by exists post|done].
  - rewrite orb_true_iff, prefix_spec, IH. split.
    + intros [[u Hu]|(pre & post & ->)].
      * by exists EmptyString, u.
      * by exists (String c pre), post.
    + intros ([|c' pre] & post & Hs).
      * left. by exists post.
      * right. rewrite app_cons in Hs. injection Hs as _ ->. by exists pre, post.
Qed.

Lemma str_truthy_true s : str_truthy s = true ↔ s ≠ EmptyString.
Proof. by destruct s. Qed.

Lemma str_truthy_false s : str_truthy s = false ↔ s = EmptyString.
Proof. by destruct s. Qed.
End strings.

(** ** The error monad and loops *)

Lemma bind_Ok {A B} (f : A → result B) (r : result A) (b : B) :
  r ≫= f = Ok b ↔ ∃ a, r = Ok a ∧ f a = Ok b.
Proof.
  destruct r as [a|e]; unfold mbind, result_bind.
  - split; [by exists a|]. by intros (a' & [= ->] & ?).
  - split; [done|]. by intros (? & ? & ?).
Qed.

Lemma mapM_Ok_Forall2 {A B} (f : A → result B) (l : list A) (k : list B) :
  mapM f l = Ok k ↔ Forall2 (λ x y, f x = Ok y) l k.
Proof.
  revert k. induction l as [|x l IH]; intros k; simpl.
  - split; [by intros [= <-]|by inversion 1].
  - split.
    + intros (y & Hy & (k' & Hk' & [= <-])%bind_Ok)%bind_Ok.
      constructor; [done|by apply IH].
    + inversion 1 as [|? y ? k' Hy Hk']; simplify_eq.
      apply bind_Ok. exists y. split; [done|].
      apply bind_Ok. exists k'. split; [by apply IH|done].
Qed.

(** ** The labeller *)

Section labeller.
Implicit Types (M : list string) (K : gmap string string).

Lemma label_loop K M acc :
  for_each (label_step K) acc (PStr <$> M)
  = Ok (acc ++ ((λ mac, (upper mac, label_of K mac)) <$> M)).
Proof.
  revert acc. induction M as [|mac M IH]; intros acc; simpl.
  - by rewrite app_nil_r.
  - rewrite IH. by rewrite <-app_assoc.
Qed.

Lemma label_mac_addresses_strings K M :
  label_mac_addresses (PStr <$> M) K
  = Ok ((λ mac, (upper mac, label_of K mac)) <$> M).
Proof. unfold label_mac_addresses. by rewrite label_loop. Qed.
End labeller.

(** C1. For every list [M] of MAC strings and every mapping [K],
    [label_mac_addresses] returns (it raises nothing) a list of the length of
    [M] whose [i]-th entry carries the upper-cased [i]-th element of [M]:
    nothing is filtered, merged or reordered. *)
Theorem label_mac_addresses_order (M : list string) (K : gmap string string) :
  ∃ L, label_mac_addresses (PStr <$> M) K = Ok L
       ∧ length L = length M
       ∧ L.*1 = upper <$> M
       ∧ ∀ i mac, M !! i = Some mac → L.*1 !! i = Some (upper mac).
Proof.
  eexists. split; [apply label_mac_addresses_strings|].
  split; [by rewrite length_fmap|].
  assert (((λ mac, (upper mac, label_of K mac)) <$> M).*1 = upper <$> M) as ->.
  { rewrite <-list_fmap_compose. by apply list_fmap_ext. }
  split; [done|]. intros i mac Hi. by rewrite list_lookup_fmap, Hi.
Qed.

(** C2, as the claim states it, fails: a mapping may hold an empty name, and
    the labeller hands it on. *)
Lemma label_mac_addresses_empty_label :
  label_mac_addresses [PStr "aa"] {[ "AA" := EmptyString ]} = Ok [("AA", EmptyString)]
  ∧ ¬ (∀ (M : list string) (K : gmap string string) L e,
         label_mac_addresses (PStr <$> M) K = Ok L → e ∈ L → e.2 ≠ EmptyString).
Proof.
  assert (label_mac_addresses [PStr "aa"] {[ "AA" := EmptyString ]}
          = Ok [("AA", EmptyString)]) as Heval by (vm_compute; reflexivity).
  split; [done|]. intros H.
  apply (H ["aa"] {[ "AA" := EmptyString ]} _ ("AA", EmptyString) Heval); [|done].
  apply list_elem_of_singleton. done.
Qed.

(** C2, amended. For every list [M] of MAC strings and every mapping [K],
    [label_mac_addresses] raises nothing and its [i]-th label is the value of
    [K] at the upper-cased [M !! i] when that key is present, and the literal
    ["Unknown"] (which is not empty) when it is absent; when no value of [K]
    is empty, no label is empty. *)
Theorem label_mac_addresses_labels (M : list string) (K : gmap string string) :
  ∃ L, label_mac_addresses (PStr <$> M) K = Ok L
       ∧ (∀ i mac, M !! i = Some mac →
            L.*2 !! i = Some (match K !! upper mac with
                              | Some nm => nm
                              | None => "Unknown"
                              end))
       ∧ ((∀ k nm, K !! k = Some nm → nm ≠ EmptyString) →
          ∀ e, e ∈ L → e.2 ≠ EmptyString).
Proof.
  eexists. split; [apply label_mac_addresses_strings|]. split.
  - intros i mac Hi. rewrite <-list_fmap_compose, list_lookup_fmap, Hi. simpl.
    unfold label_of. by destruct (K !! upper mac).
  - intros HK e (mac & -> & _)%list_elem_of_fmap. simpl. unfold label_of.
    destruct (K !! upper mac) as [nm|] eqn:Hk; simpl; [by eapply HK|done].
Qed.

(** ** The entry filter *)

Section filter.
Implicit Types (E : list (string * string)) (T : string).

Lemma filter_loop (p : string * string → bool) E acc :
  foldl (λ filtered e, if p e then filtered ++ [e] else filtered) acc E
  = acc ++ filter (λ e, p e = true) E.
Proof.
  revert acc. induction E as [|e E IH]; intros acc; simpl.
  - by rewrite app_nil_r.
  - rewrite IH. destruct (p e) eqn:Hp.
    + rewrite filter_cons_True by done. by rewrite <-app_assoc.
    + rewrite filter_cons_False; [done|]. by rewrite Hp.
Qed.

Lemma filter_entries_filter E T :
  T ≠ EmptyString →
  filter_entries E T = filter (λ e, entry_matches (lower T) e = true) E.
Proof.
  intros HT. unfold filter_entries.
  apply str_truthy_true in HT as ->. simpl. by rewrite filter_loop.
Qed.

Lemma contains_lower_ci T s :
  contains (lower s) (lower T) = true ↔ ci_substring T s.
Proof.
  rewrite contains_spec. split.
  - intros (pre & post & Hs).
    apply str_map_app_inv in Hs as (s1 & s2 & -> & <- & Hs).
    apply str_map_app_inv in Hs as (s3 & s4 & -> & Hmid & <-).
    by exists s1, s3, s4.
  - intros (pre & mid & post & -> & Hmid).
    exists (lower pre), (lower post). unfold lower in *.
    by rewrite !str_map_app, Hmid.
Qed.

Lemma entry_matches_ci T e :
  entry_matches (lower T) e = true ↔ ci_substring T e.1 ∨ ci_substring T e.2.
Proof. unfold entry_matches. by rewrite orb_true_iff, !contains_lower_ci. Qed.
End filter.

(** C8. With the empty search term [filter_entries] returns its entries, all
    of them and in their order. *)
Theorem filter_entries_empty_term (E : list (string * string)) :
  filter_entries E EmptyString = E.
Proof.
  unfold filter_entries.
  assert (str_truthy EmptyString = false) as -> by (by apply str_truthy_false).
  reflexivity.
Qed.

#[global] Instance ci_substring_dec (T s : string) : Decision (ci_substring T s).
Proof.
  refine (cast_if (decide (contains (lower s) (lower T) = true)));
    by rewrite <-contains_lower_ci.
Defined.

Lemma filter_all {A} (P : A → Prop) `{!∀ x, Decision (P x)} (l : list A) :
  (∀ x, P x) → filter P l = l.
Proof.
  intros HP. induction l as [|x l IH]; [done|].
  by rewrite filter_cons_True, IH.
Qed.

Lemma ci_substring_empty (s : string) : ci_substring EmptyString s.
Proof. by exists EmptyString, EmptyString, s. Qed.

(** C9. For every entry list [E] and every term [T] (the non-empty ones in
    particular), [filter_entries E T] is [E] filtered by: [T] is a
    case-insensitive substring of the entry's MAC or of its label. So an
    entry is in the result exactly when it is an entry of [E] with this
    property, and the result is a subsequence of [E], in the order of [E]. *)
Theorem filter_entries_substring (E : list (string * string)) (T : string) :
  filter_entries E T = filter (λ e, ci_substring T e.1 ∨ ci_substring T e.2) E
  ∧ (∀ e, e ∈ filter_entries E T ↔ e ∈ E ∧ (ci_substring T e.1 ∨ ci_substring T e.2))
  ∧ sublist (filter_entries E T) E.
Proof.
  assert (filter_entries E T = filter (λ e, ci_substring T e.1 ∨ ci_substring T e.2) E)
    as ->.
  { destruct (decide (T = EmptyString)) as [->|HT].
    - change (filter_entries E EmptyString) with E. symmetry. apply filter_all.
      intros e. left. apply ci_substring_empty.
    - rewrite filter_entries_filter by done. apply list_filter_iff.
      intros e. apply entry_matches_ci. }
  split_and!; [done| |apply sublist_filter].
  intros e. rewrite list_elem_of_filter. tauto.
Qed.

(** ** Known devices *)

Section known_devices.
Implicit Types (d : pydict) (v : pyval) (m : gmap string string).

Lemma usable_name_Some v n :
  usable_name v = Some n ↔ ∃ s, v = PStr s ∧ strip s ≠ EmptyString ∧ n = strip s.
Proof.
  destruct v as [| | |s| |]; simpl; try (split; [done|by intros (? & ? & _)]).
  destruct (str_truthy (strip s)) eqn:Hs.
  - apply str_truthy_true in Hs. split.
    + intros [= <-]. by exists s.
    + by intros (? & [= <-] & _ & ->).
  - apply str_truthy_false in Hs. split; [done|].
    by intros (? & [= <-] & ? & _).
Qed.

Lemma usable_name_None v : usable_name v = None ↔ ¬ qualifies v.
Proof.
  split.
  - intros Hv (s & -> & Hs). simpl in Hv.
    apply str_truthy_true in Hs. by rewrite Hs in Hv.
  - intros Hq. destruct (usable_name v) as [n|] eqn:Hv; [|done].
    apply usable_name_Some in Hv as (s & -> & ? & _). destruct Hq. by exists s.
Qed.

Lemma usable_name_nonempty v n : usable_name v = Some n → n ≠ EmptyString.
Proof. by intros (s & _ & ? & ->)%usable_name_Some. Qed.

Lemma pick_first_Some d keys n :
  pick_first d keys = Some n →
  ∃ pre key post, keys = pre ++ key :: post
    ∧ usable_name (dict_get d key) = Some n
    ∧ Forall (λ k, ¬ qualifies (dict_get d k)) pre.
Proof.
  induction keys as [|k keys IH]; simpl; [done|].
  destruct (usable_name (dict_get d k)) as [n'|] eqn:Hk.
  - intros [= ->]. by exists [], k, keys.
  - intros (pre & key & post & -> & Hkey & Hpre)%IH.
    exists (k :: pre), key, post. split_and!; [done..|].
    constructor; [by apply usable_name_None|done].
Qed.

Lemma pick_first_None d keys :
  pick_first d keys = None ↔ Forall (λ k, ¬ qualifies (dict_get d k)) keys.
Proof.
  induction keys as [|k keys IH]; simpl; [done|].
  rewrite Forall_cons, <-IH, <-usable_name_None.
  destruct (usable_name (dict_get d k)).
  - split; [done|by intros [? _]].
  - split; [done|by intros [_ ?]].
Qed.

Lemma pick_name_nonempty d n : _pick_name d = Some n → n ≠ EmptyString.
Proof.
  intros (_ & key & _ & _ & Hn & _)%pick_first_Some. by eapply usable_name_nonempty.
Qed.

(** What one turn of the loop does, by cases. *)
Lemma known_device_step_dict m d :
  known_device_step m (PDict d)
  = mac ← device_mac d;
    Ok (if str_truthy mac
        then match _pick_name d with Some nm => <[mac := nm]> m | None => m end
        else m).
Proof.
  unfold known_device_step. simpl. destruct (device_mac d) as [mac|]; simpl; [|done].
  destruct (str_truthy mac); simpl; [|done].
  destruct (_pick_name d) as [nm|] eqn:Hnm; [|done].
  apply pick_name_nonempty, str_truthy_true in Hnm. by rewrite Hnm.
Qed.

Lemma device_mac_falsy d :
  truthy (dict_get d "mac") = false → device_mac d = Ok EmptyString.
Proof. unfold device_mac, py_or. by intros ->. Qed.

Lemma device_mac_Ok d mac :
  device_mac d = Ok mac → mac ≠ EmptyString →
  ∃ s, dict_get d "mac" = PStr s ∧ upper s = mac.
Proof.
  unfold device_mac, py_or. destruct (truthy (dict_get d "mac")) eqn:Ht.
  - destruct (dict_get d "mac") as [| | |s| |]; simpl; try done.
    intros [= <-] _. by exists s.
  - by intros [= <-].
Qed.

(** An invariant of a [for] loop holds of its result. *)
Lemma for_each_invariant {A S} (P : S → Prop) (body : S → A → result S) l s s' :
  P s →
  (∀ s1 x s2, x ∈ l → P s1 → body s1 x = Ok s2 → P s2) →
  for_each body s l = Ok s' → P s'.
Proof.
  revert s. induction l as [|x l IH]; intros s Hs Hbody; simpl.
  - by intros [= <-].
  - intros (s1 & Hx & Hl)%bind_Ok. eapply IH; [| |done].
    + eapply Hbody; [|done..]. by left.
    + intros ?????. eapply Hbody; [|done..]. by right.
Qed.

Lemma for_each_Raise {A S} (body : S → A → result S) l s e :
  for_each body s l = Raise e → ∃ s1 x, x ∈ l ∧ body s1 x = Raise e.
Proof.
  revert s. induction l as [|x l IH]; intros s; simpl; [done|].
  destruct (body s x) as [s1|e'] eqn:Hx; simpl.
  - intros (s2 & y & ? & ?)%IH. exists s2, y. split; [by right|done].
  - intros [= ->]. exists s, x. split; [by left|done].
Qed.

Lemma known_devices_loop_entries devices m :
  for_each known_device_step ∅ devices = Ok m →
  ∀ k nm, m !! k = Some nm → from_roster devices k nm.
Proof.
  apply (for_each_invariant (λ m, ∀ k nm, m !! k = Some nm → from_roster devices k nm)).
  - intros k nm. by rewrite lookup_empty.
  - intros m1 x m2 Hx Hm1 Hstep k nm Hk.
    destruct x as [| | | | |d]; try done.
    rewrite known_device_step_dict in Hstep.
    apply bind_Ok in Hstep as (mac & Hmac & [= <-]).
    destruct (str_truthy mac) eqn:Hne; [|by apply Hm1].
    destruct (_pick_name d) as [nm'|] eqn:Hnm; [|by apply Hm1].
    destruct (decide (k = mac)) as [->|Hkm].
    + rewrite lookup_insert_eq in Hk. injection Hk as ->.
      apply str_truthy_true in Hne.
      destruct (device_mac_Ok _ _ Hmac Hne) as (s & Hs & Hup).
      split_and!; [done|by eapply pick_name_nonempty|]. by exists d, s.
    + rewrite lookup_insert_ne in Hk by done. by apply Hm1.
Qed.
End known_devices.

(** C5. The display name of a device record is that of the first of the
    fields [name], [hostname], [usergroup_name], [oui], in this order, whose
    value is a string that is not empty once trimmed, and it is that value
    trimmed. When no field qualifies there is no name, and the turn of the
    loop of [fetch_known_devices] for this device leaves the mapping as it
    was. A record whose [name] does not qualify and whose [hostname] is
    ["host1"] resolves to ["host1"], whatever its [oui]. *)
Theorem pick_name_priority (d : pydict) :
  match _pick_name d with
  | Some n =>
      ∃ pre key post s,
        ["name"; "hostname"; "usergroup_name"; "oui"] = pre ++ key :: post
        ∧ Forall (λ k, ¬ qualifies (dict_get d k)) pre
        ∧ dict_get d key = PStr s ∧ strip s ≠ EmptyString ∧ n = strip s
  | None =>
      Forall (λ k, ¬ qualifies (dict_get d k)) ["name"; "hostname"; "usergroup_name"; "oui"]
      ∧ ∀ mapping mac, device_mac d = Ok mac →
          known_device_step mapping (PDict d) = Ok mapping
  end
  ∧ (¬ qualifies (dict_get d "name") → dict_get d "hostname" = PStr "host1" →
     _pick_name d = Some "host1").
Proof.
  split.
  - destruct (_pick_name d) as [n|] eqn:Hn.
    + apply pick_first_Some in Hn as (pre & key & post & Hkeys & Hkey & Hpre).
      apply usable_name_Some in Hkey as (s & ? & ? & ?). by exists pre, key, post, s.
    + split; [by apply pick_first_None|].
      intros mapping mac Hmac. rewrite known_device_step_dict, Hmac, Hn. simpl.
      by destruct (str_truthy mac).
  - intros Hname Hhost. unfold _pick_name. simpl.
    apply usable_name_None in Hname as ->. by rewrite Hhost.
Qed.

(** The name-priority example of the specification. *)
Lemma pick_name_priority_witness :
  _pick_name [("hostname", PStr "host1"); ("oui", PStr "Vendor")] = Some "host1"
  ∧ known_device_step ∅ (PDict [("mac", PStr "aa:bb"); ("name", PStr "  ")]) = Ok ∅.
Proof.
  split.
  - apply (pick_name_priority [("hostname", PStr "host1"); ("oui", PStr "Vendor")]).
    + intros (s & [=] & _).
    + reflexivity.
  - pose proof (pick_name_priority [("mac", PStr "aa:bb"); ("name", PStr "  ")]) as [H _].
    simpl in H. destruct H as [_ H]. by apply (H ∅ "AA:BB").
Defined.

(** C6. Every key of the mapping that [fetch_known_devices] returns is a
    non-empty string, the upper-cased MAC field of a device of the roster.
    A device whose MAC field is missing, null or empty (any false value) adds
    no key and raises nothing: its turn of the loop leaves the mapping as it
    was. *)
Theorem fetch_known_devices_keys (w : World) (c : UniFiClient) (site_code : string)
    (m : gmap string string) :
  fetch_known_devices w c site_code = Ok m →
  (∃ data devices,
      get_data w (alluser_url c site_code) = Ok data
      ∧ py_iter data = Ok devices
      ∧ ∀ k nm, m !! k = Some nm →
          k ≠ EmptyString
          ∧ ∃ d s, PDict d ∈ devices ∧ dict_get d "mac" = PStr s ∧ upper s = k)
  ∧ (∀ d mapping,
       truthy (dict_get d "mac") = false →
       known_device_step mapping (PDict d) = Ok mapping).
Proof.
  intros Hm. split.
  - unfold fetch_known_devices in Hm.
    apply bind_Ok in Hm as (data & Hdata & Hm). unfold known_devices_of_data in Hm.
    apply bind_Ok in Hm as (devices & Hdev & Hm).
    exists data, devices. split_and!; [done..|]. intros k nm Hk.
    destruct (known_devices_loop_entries _ _ Hm _ _ Hk) as (? & _ & d & s & ? & ? & ? & _).
    split; [done|]. by exists d, s.
  - intros d mapping Hmac. by rewrite known_device_step_dict, device_mac_falsy.
Qed.

Lemma fetch_known_devices_keys_witness :
  fetch_known_devices roster_world (new_client "https://ctl:8443/" false 10) "default"
  = Ok {[ "AA:BB:CC:DD:EE:FF" := "laptop" ]}
  ∧ known_device_step ∅ (PDict [("hostname", PStr "ghost")]) = Ok ∅.
Proof.
  assert (fetch_known_devices roster_world (new_client "https://ctl:8443/" false 10)
            "default" = Ok {[ "AA:BB:CC:DD:EE:FF" := "laptop" ]}) as H
    by (vm_compute; reflexivity).
  split; [done|].
  by apply (fetch_known_devices_keys _ _ _ _ H).
Defined.

(** No name in the mapping of [fetch_known_devices] is empty, so that no
    label made from it is. *)
Lemma fetch_known_devices_names_nonempty (w : World) (c : UniFiClient)
    (site_code : string) (m : gmap string string) (k nm : string) :
  fetch_known_devices w c site_code = Ok m → m !! k = Some nm → nm ≠ EmptyString.
Proof.
  unfold fetch_known_devices, known_devices_of_data.
  intros (data & _ & (devices & _ & Hm)%bind_Ok)%bind_Ok Hk.
  by destruct (known_devices_loop_entries _ _ Hm _ _ Hk) as (_ & ? & _).
Qed.

Lemma fetched_labels_nonempty (w : World) (c : UniFiClient) (site_code : string)
    (m : gmap string string) (M : list string) (L : list (string * string)) :
  fetch_known_devices w c site_code = Ok m →
  label_mac_addresses (PStr <$> M) m = Ok L →
  ∀ e, e ∈ L → e.2 ≠ EmptyString.
Proof.
  intros Hm. rewrite label_mac_addresses_strings. intros [= <-] e.
  intros (mac & -> & _)%list_elem_of_fmap. simpl. unfold label_of.
  destruct (m !! upper mac) as [nm|] eqn:Hk; simpl; [|done].
  by eapply fetch_known_devices_names_nonempty.
Qed.

(** ** Sorting *)

Section sorting.
Context {A : Type} (key : A → string).
Implicit Types (l : list A) (x y : A).

Lemma ltb_le a b : String.ltb a b = true → String.le a b.
Proof.
  unfold String.ltb, String.le, String.leb.
  by destruct (String.compare a b).
Qed.

Lemma not_ltb_le a b : String.ltb a b = false → String.le b a.
Proof.
  unfold String.ltb, String.le, String.leb.
  rewrite (String.compare_antisym a b). by destruct (String.compare b a).
Qed.

Lemma insert_by_Permutation x l : insert_by key x l ≡ₚ x :: l.
Proof.
  induction l as [|y l IH]; simpl; [done|].
  destruct (String.ltb (key y) (key x)); [|done].
  by rewrite IH, Permutation_swap.
Qed.

Lemma sort_by_Permutation l : sort_by key l ≡ₚ l.
Proof.
  induction l as [|x l IH]; simpl; [done|].
  by rewrite insert_by_Permutation, IH.
Qed.

Lemma sort_by_elem_of l x : x ∈ sort_by key l ↔ x ∈ l.
Proof. by rewrite sort_by_Permutation. Qed.

Lemma insert_by_HdRel x y l :
  (key_le key) y x → HdRel (key_le key) y l → HdRel (key_le key) y (insert_by key x l).
Proof.
  intros Hyx Hl. destruct l as [|z l]; simpl; [by constructor|].
  destruct (String.ltb (key z) (key x)); constructor; [|done].
  by inversion Hl.
Qed.

Lemma insert_by_Sorted x l : Sorted (key_le key) l → Sorted (key_le key) (insert_by key x l).
Proof.
  induction 1 as [|y l Hl IH Hhd]; simpl; [by repeat constructor|].
  destruct (String.ltb (key y) (key x)) eqn:Hlt.
  - constructor; [done|]. apply insert_by_HdRel; [|done]. by apply ltb_le.
  - constructor; [by constructor|]. constructor. by apply not_ltb_le.
Qed.

Lemma sort_by_Sorted l : Sorted (key_le key) (sort_by key l).
Proof.
  induction l as [|x l IH]; simpl; [constructor|]. by apply insert_by_Sorted.
Qed.
End sorting.

(** ** Sites *)

Section sites.
Implicit Types (d : pydict) (s : Site).

Lemma site_checked_Ok f s :
  site_checked f = Ok s ↔ f = (code s, PStr (description s)).
Proof.
  destruct f as [c [| | |str| |]], s as [c' str']; simpl;
    try (split; [done|by intros [= _ ?]]).
  split; by intros [= -> ->].
Qed.

(** Each site that is returned was built from a record of the response. *)
Lemma sites_of_data_elem data sites s :
  sites_of_data data = Ok sites → s ∈ sites →
  ∃ items item, py_iter data = Ok items ∧ item ∈ items
                ∧ site_fields item = Ok (code s, PStr (description s)).
Proof.
  unfold sites_of_data.
  intros (items & Hitems & (raw & Hraw & (checked & Hchk & [= <-])%bind_Ok)%bind_Ok)%bind_Ok.
  rewrite sort_by_elem_of. intros Hs.
  apply mapM_Ok_Forall2 in Hraw, Hchk.
  destruct (list_elem_of_lookup_1 _ _ Hs) as [i Hi].
  destruct (Forall2_lookup_r _ _ _ _ _ Hchk Hi) as (f & Hf & Hfs).
  apply site_checked_Ok in Hfs as ->.
  destruct (Forall2_lookup_r _ _ _ _ _ Hraw Hf) as (item & Hitem & Hfields).
  exists items, item. split_and!; [done| |done]. by eapply list_elem_of_lookup_2.
Qed.
End sites.

Lemma sites_of_data_complete (data : pyval) (sites : list Site) (items : list pyval)
    (item : pyval) :
  sites_of_data data = Ok sites → py_iter data = Ok items → item ∈ items →
  ∃ s, s ∈ sites ∧ site_fields item = Ok (code s, PStr (description s)).
Proof.
  unfold sites_of_data.
  intros (items' & Hitems & (raw & Hraw & (checked & Hchk & [= <-])%bind_Ok)%bind_Ok)%bind_Ok.
  rewrite Hitems. intros [= <-] [i Hi]%list_elem_of_lookup_1.
  apply mapM_Ok_Forall2 in Hraw, Hchk.
  destruct (Forall2_lookup_l _ _ _ _ _ Hraw Hi) as (f & Hf & Hfields).
  destruct (Forall2_lookup_l _ _ _ _ _ Hchk Hf) as (s & Hs & Hfs).
  apply site_checked_Ok in Hfs as ->.
  exists s. split; [|done]. apply sort_by_elem_of. by eapply list_elem_of_lookup_2.
Qed.

(** C10. For a site record whose [desc] is missing or false (null, empty),
    the description the [Site] is built with is its code, the record's [name]
    or the empty string when there is none. Every site that [fetch_sites]
    returns was built from a record of the response and its description is a
    string, the code itself when the record's [desc] is missing or false; a
    record that would leave the description without a string (no [desc] and
    a [name] that is no string) makes [fetch_sites] raise, so that no such
    site comes back. *)
Theorem site_description_defaults_to_code :
  (∀ d, truthy (dict_get d "desc") = false →
        site_fields (PDict d)
        = Ok (dict_get_or d "name" (PStr EmptyString),
              dict_get_or d "name" (PStr EmptyString)))
  ∧ (∀ w c sites s, fetch_sites w c = Ok sites → s ∈ sites →
       ∃ data items item,
         get_data w (sites_url c) = Ok data ∧ py_iter data = Ok items ∧ item ∈ items
         ∧ site_fields item = Ok (code s, PStr (description s))
         ∧ ∀ d, item = PDict d → truthy (dict_get d "desc") = false →
                code s = PStr (description s)
                ∧ dict_get_or d "name" (PStr EmptyString) = PStr (description s))
  ∧ (∀ w c data items d,
       get_data w (sites_url c) = Ok data → py_iter data = Ok items →
       PDict d ∈ items → truthy (dict_get d "desc") = false →
       (∀ str, dict_get_or d "name" (PStr EmptyString) ≠ PStr str) →
       ∃ e, fetch_sites w c = Raise e).
Proof.
  assert (∀ d, truthy (dict_get d "desc") = false →
        site_fields (PDict d)
        = Ok (dict_get_or d "name" (PStr EmptyString),
              dict_get_or d "name" (PStr EmptyString))) as Hrecord.
  { intros d Hd. unfold site_fields, py_or. simpl. by rewrite Hd. }
  split_and!; [done| |].
  - intros w c sites s Hsites Hs. unfold fetch_sites in Hsites.
    apply bind_Ok in Hsites as (data & Hdata & Hsites).
    destruct (sites_of_data_elem _ _ _ Hsites Hs) as (items & item & Hitems & Hitem & Hf).
    exists data, items, item. split_and!; [done..|].
    intros d -> Hd. rewrite (Hrecord d Hd) in Hf. by injection Hf as <- ->.
  - intros w c data items d Hdata Hitems Hd Hdesc Hname.
    unfold fetch_sites. rewrite Hdata. simpl.
    destruct (sites_of_data data) as [sites|e] eqn:Hsites; [|by exists e].
    destruct (sites_of_data_complete _ _ _ _ Hsites Hitems Hd) as (s & _ & Hf).
    rewrite (Hrecord d Hdesc) in Hf. injection Hf as _ Hf. by destruct (Hname _ Hf).
Qed.

Lemma site_description_defaults_to_code_witness :
  fetch_sites sites_world (new_client "https://ctl:8443" false 10)
  = Ok [{| code := PStr "b7x2k"; description := "b7x2k" |};
        {| code := PStr "default"; description := "Main Office" |}]
  ∧ site_fields (PDict [("name", PStr "b7x2k"); ("desc", PNone)])
    = Ok (PStr "b7x2k", PStr "b7x2k").
Proof.
  split; [vm_compute; reflexivity|].
  by apply (proj1 site_description_defaults_to_code [("name", PStr "b7x2k"); ("desc", PNone)]).
Defined.

(** ** WLAN lookup *)

Section wlan_lookup.
Implicit Types (wlans : list WlanProfile) (p : WlanProfile) (n : string).

Lemma wlan_lookup_foldl_Some wlans (m : gmap string WlanProfile) n p :
  foldl (λ m wlan, <[name wlan := wlan]> m) m wlans !! n = Some p →
  m !! n = Some p ∨ (p ∈ wlans ∧ name p = n).
Proof.
  revert m. induction wlans as [|q wlans IH]; intros m; simpl; [by left|].
  intros [Hm|[Hp Hn]]%IH.
  - destruct (decide (name q = n)) as [<-|Hne].
    + rewrite lookup_insert_eq in Hm. injection Hm as ->. right. split; [by left|done].
    + rewrite lookup_insert_ne in Hm by done. by left.
  - right. split; [by right|done].
Qed.

Lemma wlan_lookup_foldl_is_Some wlans (m : gmap string WlanProfile) n :
  is_Some (foldl (λ m wlan, <[name wlan := wlan]> m) m wlans !! n)
  ↔ is_Some (m !! n) ∨ n ∈ name <$> wlans.
Proof.
  revert m. induction wlans as [|q wlans IH]; intros m; simpl.
  - rewrite elem_of_nil. tauto.
  - rewrite IH, elem_of_cons. destruct (decide (n = name q)) as [->|Hne].
    + rewrite lookup_insert_eq. split; [by right; left|]. intros _. by left.
    + rewrite lookup_insert_ne by done. tauto.
Qed.

Lemma wlan_lookup_Some wlans n p :
  wlan_lookup wlans !! n = Some p → p ∈ wlans ∧ name p = n.
Proof. by intros [?|?]%wlan_lookup_foldl_Some. Qed.

Lemma wlan_lookup_is_Some wlans n :
  is_Some (wlan_lookup wlans !! n) ↔ n ∈ name <$> wlans.
Proof.
  unfold wlan_lookup. rewrite wlan_lookup_foldl_is_Some, lookup_empty.
  split; [|by right]. by intros [[? [=]]|?].
Qed.

Lemma wlan_lookup_None wlans n :
  wlan_lookup wlans !! n = None ↔ n ∉ name <$> wlans.
Proof. by rewrite <-wlan_lookup_is_Some, eq_None_not_Some. Qed.

Lemma sorted_keys_elem_of {V} (m : gmap string V) n :
  n ∈ sorted_keys m ↔ is_Some (m !! n).
Proof.
  unfold sorted_keys. rewrite sort_by_elem_of, list_elem_of_fmap. split.
  - intros ([k v] & -> & Hkv%elem_of_map_to_list). by exists v.
  - intros [v Hv]. exists (n, v). by rewrite elem_of_map_to_list.
Qed.

Lemma sorted_keys_NoDup {V} (m : gmap string V) : NoDup (sorted_keys m).
Proof.
  unfold sorted_keys. rewrite sort_by_Permutation. apply NoDup_fst_map_to_list.
Qed.

Lemma sorted_keys_Sorted {V} (m : gmap string V) : Sorted String.le (sorted_keys m).
Proof. apply (sort_by_Sorted id). Qed.
End wlan_lookup.

(** ** What a fetch can raise *)

Lemma get_data_Raise (w : World) (url : string) (e : exn) :
  get_data w url = Raise e → not_ValueError e.
Proof.
  unfold get_data, raise_for_status, response_data.
  destruct (http_get w url) as [|status [[| | | | |d]|]]; simpl;
    try destruct (_ && _); simpl; by intros [= <-] msg.
Qed.

Lemma known_device_step_Raise (m : gmap string string) (x : pyval) (e : exn) :
  known_device_step m x = Raise e → e = AttributeError.
Proof.
  destruct x as [| | | | |d]; try by intros [= <-].
  rewrite known_device_step_dict. unfold device_mac.
  destruct (py_or _ _); simpl; by intros [= <-].
Qed.

Lemma fetch_known_devices_Raise (w : World) (c : UniFiClient) (site_code : string)
    (e : exn) :
  fetch_known_devices w c site_code = Raise e → not_ValueError e.
Proof.
  unfold fetch_known_devices.
  destruct (get_data w (alluser_url c site_code)) as [data|e'] eqn:Hdata; simpl.
  - unfold known_devices_of_data. destruct data as [| | |s|l|d]; simpl;
      try (by intros [= <-] msg);
      by intros (? & ? & _ & ->%known_device_step_Raise)%for_each_Raise msg.
  - intros [= <-]. by eapply get_data_Raise.
Qed.

Lemma mapM_Raise {A B} (f : A → result B) (l : list A) (e : exn) :
  mapM f l = Raise e → ∃ x, x ∈ l ∧ f x = Raise e.
Proof.
  induction l as [|x l IH]; simpl; [done|].
  destruct (f x) as [y|e'] eqn:Hx; simpl.
  - destruct (mapM f l) as [k|e'] eqn:Hl; simpl; [done|].
    intros [= ->]. destruct IH as (x' & ? & ?); [done|]. exists x'. split; [by right|done].
  - intros [= ->]. exists x. split; [by left|done].
Qed.

Lemma py_iter_Raise (v : pyval) (e : exn) : py_iter v = Raise e → e = TypeError.
Proof. destruct v; simpl; by intros [= <-]. Qed.

Lemma wlan_fields_Raise (item : pyval) (e : exn) :
  wlan_fields item = Raise e → e = AttributeError ∨ e = TypeError.
Proof.
  destruct item as [| | | | |d]; try (intros [= <-]; by left).
  unfold wlan_fields. simpl.
  destruct (py_iter _) as [macs|e'] eqn:Hmacs; simpl; [done|].
  intros [= <-]. right. by eapply py_iter_Raise.
Qed.

Lemma wlan_checked_Raise (f : pyval * list pyval) (e : exn) :
  wlan_checked f = Raise e → e = AttributeError.
Proof. destruct f as [[] ?]; simpl; by intros [= <-]. Qed.

Lemma fetch_wlans_Raise (w : World) (c : UniFiClient) (site_code : string) (e : exn) :
  fetch_wlans w c site_code = Raise e → not_ValueError e.
Proof.
  unfold fetch_wlans.
  destruct (get_data w (wlanconf_url c site_code)) as [data|e'] eqn:Hdata; simpl;
    [|intros [= <-]; by eapply get_data_Raise].
  unfold wlans_of_data.
  destruct (py_iter data) as [items|e'] eqn:Hitems; simpl;
    [|intros [= <-] msg; by rewrite (py_iter_Raise _ _ Hitems)].
  destruct (mapM wlan_fields items) as [raw|e'] eqn:Hraw; simpl.
  - destruct (mapM wlan_checked raw) as [wlans|e'] eqn:Hchk; simpl; [done|].
    intros [= <-] msg. apply mapM_Raise in Hchk as (f & _ & Hf).
    by rewrite (wlan_checked_Raise _ _ Hf).
  - intros [= <-] msg. apply mapM_Raise in Hraw as (item & _ & Hitem).
    by destruct (wlan_fields_Raise _ _ Hitem) as [-> | ->].
Qed.

(** C4. [fetch_mac_filter_details] looks the WLAN up by its exact name among
    the profiles that [fetch_wlans] returned. When no profile has that name
    it raises the [ValueError] whose message is
    [WLAN '<name>' not found. Available: ] followed by the names of the
    profiles, each once, in ascending order, joined by a comma and a space.
    When a profile has that name it raises no [ValueError]. When
    [fetch_wlans] itself raises, so does [fetch_mac_filter_details], with
    the same exception, which is no [ValueError]. *)
Theorem fetch_mac_filter_details_not_found (w : World) (c : UniFiClient)
    (site_code wlan_name : string) :
  match fetch_wlans w c site_code with
  | Raise e =>
      fetch_mac_filter_details w c site_code wlan_name = Raise e
      ∧ ∀ msg, e ≠ ValueError msg
  | Ok wlans =>
      let available := sorted_keys (wlan_lookup wlans) in
        Sorted String.le available ∧ NoDup available
        ∧ (∀ n, n ∈ available ↔ ∃ p, p ∈ wlans ∧ name p = n)
        ∧ (wlan_name ∉ name <$> wlans →
           fetch_mac_filter_details w c site_code wlan_name
           = Raise (ValueError ("WLAN '" +:+ wlan_name +:+ "' not found. Available: "
                                +:+ join ", " available)))
        ∧ (wlan_name ∈ name <$> wlans →
           ∀ msg, fetch_mac_filter_details w c site_code wlan_name
                  ≠ Raise (ValueError msg))
  end.
Proof.
  unfold fetch_mac_filter_details.
  destruct (fetch_wlans w c site_code) as [wlans|e] eqn:Hwlans; simpl;
    [|split; [done|by eapply fetch_wlans_Raise]].
  split_and!; [apply sorted_keys_Sorted|apply sorted_keys_NoDup| | |].
  - intros n. rewrite sorted_keys_elem_of, wlan_lookup_is_Some, list_elem_of_fmap.
    split; [intros (p & -> & ?)|intros (p & ? & <-)]; by exists p.
  - intros Hn%wlan_lookup_None. unfold mac_filter_details_of. by rewrite Hn.
  - intros [p Hp]%wlan_lookup_is_Some msg. unfold mac_filter_details_of. rewrite Hp.
    destruct (fetch_known_devices w c site_code) as [known|e] eqn:Hknown; simpl; [done|].
    intros [= ->]. by eapply fetch_known_devices_Raise.
Qed.

(** ** WLAN profiles *)

Section wlans.
Implicit Types (d : pydict) (p : WlanProfile) (item : pyval).

Lemma wlan_fields_lacking d :
  lacks_filter_list d →
  wlan_fields (PDict d) = Ok (dict_get_or d "name" (PStr EmptyString), []).
Proof.
  intros Hd. unfold wlan_fields. simpl. unfold dict_get, py_or.
  by destruct Hd as [->| ->].
Qed.

Lemma wlan_checked_Ok f p :
  wlan_checked f = Ok p ↔ f = (PStr (name p), mac_filter_list p).
Proof.
  destruct f as [[| | |str| |] l], p as [str' l']; simpl;
    try (split; [done|by intros [= ? _]]).
  split; by intros [= -> ->].
Qed.

Lemma mapM_total {A B} (f : A → result B) (l : list A) :
  Forall (λ x, ∃ y, f x = Ok y) l → ∃ k, mapM f l = Ok k.
Proof.
  induction 1 as [|x l [y Hy] _ [k Hk]]; [by exists []|].
  exists (y :: k). apply mapM_Ok_Forall2. constructor; [done|].
  by apply mapM_Ok_Forall2.
Qed.

Lemma wlans_of_data_total data items :
  py_iter data = Ok items → Forall wlan_record_ok items →
  ∃ wlans, wlans_of_data data = Ok wlans.
Proof.
  intros Hitems Hok. unfold wlans_of_data. rewrite Hitems. simpl.
  assert (∃ ps : list WlanProfile,
    mapM wlan_fields items = Ok ((λ p, (PStr (name p), mac_filter_list p)) <$> ps))
    as [ps Hps].
  { clear Hitems. induction Hok as [|item items (d & n & macs & -> & Hn & Hmacs) _ [ps IH]].
    - by exists [].
    - exists ({| name := n; mac_filter_list := macs |} :: ps).
      apply mapM_Ok_Forall2. constructor; [|by apply mapM_Ok_Forall2].
      unfold wlan_fields. simpl. rewrite Hmacs. simpl. by rewrite Hn. }
  rewrite Hps. simpl.
  assert (mapM wlan_checked ((λ p, (PStr (name p), mac_filter_list p)) <$> ps) = Ok ps)
    as ->; [|by eexists].
  apply mapM_Ok_Forall2, Forall2_fmap_l, Forall_Forall2_diag, Forall_forall.
  intros p _. by apply wlan_checked_Ok.
Qed.

Lemma wlans_of_data_elem data wlans p :
  wlans_of_data data = Ok wlans → p ∈ wlans →
  ∃ items item, py_iter data = Ok items ∧ item ∈ items
                ∧ wlan_fields item = Ok (PStr (name p), mac_filter_list p).
Proof.
  unfold wlans_of_data.
  intros (items & Hitems & (raw & Hraw & (checked & Hchk & [= <-])%bind_Ok)%bind_Ok)%bind_Ok.
  rewrite sort_by_elem_of. intros [i Hi]%list_elem_of_lookup_1.
  apply mapM_Ok_Forall2 in Hraw, Hchk.
  destruct (Forall2_lookup_r _ _ _ _ _ Hchk Hi) as (f & Hf & Hfp).
  apply wlan_checked_Ok in Hfp as ->.
  destruct (Forall2_lookup_r _ _ _ _ _ Hraw Hf) as (item & Hitem & Hfields).
  exists items, item. split_and!; [done| |done]. by eapply list_elem_of_lookup_2.
Qed.

Lemma wlans_of_data_complete data wlans items item :
  wlans_of_data data = Ok wlans → py_iter data = Ok items → item ∈ items →
  ∃ p, p ∈ wlans ∧ wlan_fields item = Ok (PStr (name p), mac_filter_list p).
Proof.
  unfold wlans_of_data.
  intros (items' & Hitems & (raw & Hraw & (checked & Hchk & [= <-])%bind_Ok)%bind_Ok)%bind_Ok.
  rewrite Hitems. intros [= <-] [i Hi]%list_elem_of_lookup_1.
  apply mapM_Ok_Forall2 in Hraw, Hchk.
  destruct (Forall2_lookup_l _ _ _ _ _ Hraw Hi) as (f & Hf & Hfields).
  destruct (Forall2_lookup_l _ _ _ _ _ Hchk Hf) as (p & Hp & Hfp).
  apply wlan_checked_Ok in Hfp as ->.
  exists p. split; [|done]. apply sort_by_elem_of. by eapply list_elem_of_lookup_2.
Qed.
End wlans.

(** C7. When the records of the response are well formed, [fetch_wlans]
    returns, and every record without [mac_filter_list] (absent or null)
    gives, without an error, a profile with the empty filter list. When
    moreover the records named as [--wlan] asks lack the list, and login and
    the fetch of the known devices succeed, [fetch_mac_filter_details]
    returns a profile with the empty list, the labelled sequence is empty
    and [run_cli] returns 0: after printing [No MAC addresses found.]
    without [--out], after the export when [--out] is given and the export
    succeeds. *)
Theorem empty_filter_list_is_success (w : World) (args : Args)
    (site wlan_name : string) (data : pyval) (items : list pyval) (d : pydict)
    (K : gmap string string) :
  ensure_cli_args args = Ok () →
  arg_site args = Some site → arg_wlan args = Some wlan_name →
  login w (cli_client args) (default EmptyString (arg_user args)) (prompt_password w args)
    = Ok () →
  get_data w (wlanconf_url (cli_client args) site) = Ok data →
  py_iter data = Ok items →
  Forall wlan_record_ok items →
  PDict d ∈ items →
  dict_get_or d "name" (PStr EmptyString) = PStr wlan_name →
  (∀ d', PDict d' ∈ items → dict_get_or d' "name" (PStr EmptyString) = PStr wlan_name →
         lacks_filter_list d') →
  fetch_known_devices w (cli_client args) site = Ok K →
  ∃ wlans wlan,
      fetch_wlans w (cli_client args) site = Ok wlans
      ∧ (∀ d' n, PDict d' ∈ items → lacks_filter_list d' →
                 dict_get_or d' "name" (PStr EmptyString) = PStr n →
                 wlan_fields (PDict d') = Ok (PStr n, [])
                 ∧ {| name := n; mac_filter_list := [] |} ∈ wlans)
      ∧ fetch_mac_filter_details w (cli_client args) site wlan_name = Ok (wlan, K)
      ∧ name wlan = wlan_name ∧ mac_filter_list wlan = []
      ∧ label_mac_addresses (mac_filter_list wlan) K = Ok []
      ∧ (given (arg_out args) = false →
         run_cli w args = ([Line "No MAC addresses found."], Ok 0%Z))
      ∧ (given (arg_out args) = true →
         export_results w [] (default EmptyString (arg_out args)) (arg_format args) = Ok () →
         run_cli w args
         = ([Line ("Exported 0 entries to " +:+ default EmptyString (arg_out args)
                   +:+ " (" +:+ arg_format args +:+ ").")], Ok 0%Z)).
Proof.
  intros Hargs Hsite Hwlan Hlogin Hdata Hitems Hok Hd Hname Hlack Hknown.
  pose proof (wlan_fields_lacking d (Hlack d Hd Hname)) as Hfields.
  rewrite Hname in Hfields.
  destruct (wlans_of_data_total _ _ Hitems Hok) as [wlans Hwlans].
  assert (fetch_wlans w (cli_client args) site = Ok wlans) as Hfetch.
  { unfold fetch_wlans. by rewrite Hdata. }
  destruct (wlans_of_data_complete _ _ _ _ Hwlans Hitems Hd) as (p & Hp & Hpf).
  rewrite Hfields in Hpf. injection Hpf as Hpn _.
  assert (is_Some (wlan_lookup wlans !! wlan_name)) as [wlan Hlookup].
  { apply wlan_lookup_is_Some, list_elem_of_fmap. by exists p. }
  destruct (wlan_lookup_Some _ _ _ Hlookup) as [Hin Hwn].
  assert (mac_filter_list wlan = []) as Hempty.
  { destruct (wlans_of_data_elem _ _ _ Hwlans Hin) as (items' & item & Hitems' & Hitem & Hf).
    rewrite Hitems in Hitems'. injection Hitems' as <-.
    destruct (proj1 (Forall_forall _ _) Hok _ Hitem) as (d' & n' & macs' & -> & Hn' & _).
    assert (lacks_filter_list d') as Hd'.
    { apply Hlack; [done|]. unfold wlan_fields in Hf. simpl in Hf.
      apply bind_Ok in Hf as (? & _ & [= Hf _]). by rewrite Hf, Hwn. }
    rewrite (wlan_fields_lacking _ Hd') in Hf. by injection Hf as _ <-. }
  assert (fetch_mac_filter_details w (cli_client args) site wlan_name = Ok (wlan, K))
    as Hdetails.
  { unfold fetch_mac_filter_details, mac_filter_details_of.
    rewrite Hfetch. simpl. by rewrite Hlookup, Hknown. }
  exists wlans, wlan. split_and!; [done| |done..|by rewrite Hempty| |].
  - intros d' n Hd' Hlack' Hn'.
    pose proof (wlan_fields_lacking d' Hlack') as Hf'. rewrite Hn' in Hf'.
    split; [done|].
    destruct (wlans_of_data_complete _ _ _ _ Hwlans Hitems Hd') as ([n' l'] & Hp' & Hpf').
    rewrite Hf' in Hpf'. by injection Hpf' as <- <-.
  - intros Hout. unfold run_cli. rewrite Hargs, Hlogin, Hsite, Hwlan. simpl.
    by rewrite Hdetails, Hempty, Hout.
  - intros Hout Hexport. unfold run_cli. rewrite Hargs, Hlogin, Hsite, Hwlan. simpl.
    by rewrite Hdetails, Hempty, Hout; simpl; rewrite Hexport.
Qed.

Lemma empty_filter_list_is_success_witness :
  run_cli demo_world (demo_args "default" "Guest" None)
  = ([Line "No MAC addresses found."], Ok 0%Z).
Proof.
  edestruct (empty_filter_list_is_success demo_world (demo_args "default" "Guest" None)
               "default" "Guest" (PList demo_wlan_records) demo_wlan_records
               [("name", PStr "Guest")] {[ "AA:BB:CC:DD:EE:FF" := "laptop" ]})
    as (wlans & wlan & _ & _ & _ & _ & _ & _ & Hrun & _); [..|by apply Hrun].
  - reflexivity.
  - reflexivity.
  - reflexivity.
  - reflexivity.
  - reflexivity.
  - reflexivity.
  - repeat constructor.
    + by exists [("name", PStr "Office");
                 ("mac_filter_list",
                  PList [PStr "aa:bb:cc:dd:ee:ff"; PStr "77:88:99:aa:bb:cc"])],
                "Office", [PStr "aa:bb:cc:dd:ee:ff"; PStr "77:88:99:aa:bb:cc"].
    + by exists [("name", PStr "Guest")], "Guest", [].
    + by exists [("name", PStr "Lab"); ("mac_filter_list", PNone)], "Lab", [].
  - right. left.
  - reflexivity.
  - intros d' Hd' Hn'. repeat (apply elem_of_cons in Hd' as [[= ->]|Hd']);
      [done|by left|done|by apply elem_of_nil in Hd'].
  - vm_compute. reflexivity.
Defined.

(** ** Site resolution: the legacy script and the command line *)

Section resolve.
End resolve.

Lemma wlanconf_url_not_sites (c : UniFiClient) (site_code : string) :
  wlanconf_url c site_code ≠ sites_url c.
Proof.
  unfold wlanconf_url, sites_url. intros H%(inj (String.app _)).
  vm_compute in H. discriminate H.
Qed.

Lemma alluser_url_not_sites (c : UniFiClient) (site_code : string) :
  alluser_url c site_code ≠ sites_url c.
Proof.
  unfold alluser_url, sites_url. intros H%(inj (String.app _)).
  vm_compute in H. discriminate H.
Qed.

(** The fetch behind [run_cli] never reads the answer to the request for
    the sites. *)
Lemma fetch_mac_filter_details_with_sites (w : World) (c : UniFiClient)
    (r : http_outcome) (site_code wlan_name : string) :
  fetch_mac_filter_details (with_sites_answer w c r) c site_code wlan_name
  = fetch_mac_filter_details w c site_code wlan_name.
Proof.
  unfold fetch_mac_filter_details, fetch_wlans, fetch_known_devices, get_data. simpl.
  destruct (String.eqb_spec (wlanconf_url c site_code) (sites_url c)) as [H|_];
    [by apply wlanconf_url_not_sites in H|].
  destruct (String.eqb_spec (alluser_url c site_code) (sites_url c)) as [H|_];
    [by apply alluser_url_not_sites in H|].
  done.
Qed.

(** C3, where the code departs from it. [run_cli] does no site resolution:
    whatever the controller answers to the request for its sites, the outcome
    of [run_cli] is the same, and the value of [--site] goes into the
    addresses it requests as it is. On the controller [demo_world], whose
    single site is [default], described as "Main Office", with the WLAN
    [Office], the legacy [resolve_site_code] resolves the hints
    "Main Office" and "DEFAULT" to the code [default] and raises a
    [ValueError] that lists the descriptions for "Branch"; [run_cli]
    succeeds with [default] and ends on the controller's 404, with exit code
    1, for either hint. *)
Theorem run_cli_site_hint_unresolved :
  (∀ w args r, run_cli (with_sites_answer w (cli_client args) r) args = run_cli w args)
  ∧ resolve_site_code demo_world "https://ctl:8443" "Main Office" = Ok "default"
  ∧ resolve_site_code demo_world "https://ctl:8443" "DEFAULT" = Ok "default"
  ∧ resolve_site_code demo_world "https://ctl:8443" "Branch"
    = Raise (ValueError "Site 'Branch' not found. Available: ['Main Office']")
  ∧ run_cli demo_world (demo_args "default" "Office" None)
    = ([Line "MAC                Name   ";
        Line "-----------------  -------";
        Line "AA:BB:CC:DD:EE:FF  laptop ";
        Line "77:88:99:AA:BB:CC  Unknown"], Ok 0%Z)
  ∧ run_cli demo_world (demo_args "Main Office" "Office" None)
    = ([ErrorLine (HTTPError 404)], Ok 1%Z)
  ∧ run_cli demo_world (demo_args "DEFAULT" "Office" None)
    = ([ErrorLine (HTTPError 404)], Ok 1%Z).
Proof.
  split_and!; [|vm_compute; reflexivity..].
  intros w args r. unfold run_cli.
  by rewrite fetch_mac_filter_details_with_sites.
Qed.

(** Whatever the controller holds, [run_cli] asks for the WLANs of the site
    named exactly as [--site] says, and a refusal of that request ends it
    with exit code 1. *)
Lemma run_cli_site_verbatim (w : World) (args : Args) (site : string) (status : nat)
    (body : option pyval) :
  ensure_cli_args args = Ok () →
  arg_site args = Some site →
  login w (cli_client args) (default EmptyString (arg_user args)) (prompt_password w args)
    = Ok () →
  http_get w (wlanconf_url (cli_client args) site) = Response status body →
  400 ≤ status < 600 →
  run_cli w args = ([ErrorLine (HTTPError status)], Ok 1%Z).
Proof.
  intros Hargs Hsite Hlogin Hget [Hlo Hhi]. unfold run_cli.
  rewrite Hargs, Hlogin, Hsite. simpl.
  unfold fetch_mac_filter_details, fetch_wlans, get_data, raise_for_status.
  rewrite Hget.
  by rewrite (proj2 (Nat.leb_le _ _) Hlo), (proj2 (Nat.ltb_lt _ _) Hhi).
Qed.

(** The WLAN lookup on [demo_world]: an exact name is found, a name that
    differs in case is not, and the error lists the names in order. *)
Lemma fetch_mac_filter_details_not_found_witness :
  fetch_mac_filter_details demo_world (new_client "https://ctl:8443" false 10)
    "default" "office"
  = Raise (ValueError "WLAN 'office' not found. Available: Guest, Lab, Office").
Proof.
  pose proof (fetch_mac_filter_details_not_found demo_world
                (new_client "https://ctl:8443" false 10) "default" "office") as H.
  assert (fetch_wlans demo_world (new_client "https://ctl:8443" false 10) "default"
          = Ok [{| name := "Guest"; mac_filter_list := [] |};
                {| name := "Lab"; mac_filter_list := [] |};
                {| name := "Office";
                   mac_filter_list := [PStr "aa:bb:cc:dd:ee:ff"; PStr "77:88:99:aa:bb:cc"] |}])
    as Hwlans by (vm_compute; reflexivity).
  rewrite Hwlans in H. destruct H as (_ & _ & _ & Hnot & _).
  rewrite Hnot.
  - vm_compute. reflexivity.
  - intros Hin. repeat (apply elem_of_cons in Hin as [[=]|Hin]). by apply elem_of_nil in Hin.
Defined.

(** The case-insensitive join of the specification, by the labeller. *)
Lemma label_mac_addresses_labels_witness :
  ∃ L, label_mac_addresses (PStr <$> ["aa:bb:cc:dd:ee:ff"; "77:88:99:aa:bb:cc"])
         {[ "AA:BB:CC:DD:EE:FF" := "Laptop" ]} = Ok L
       ∧ L.*2 !! 1 = Some "Unknown"
       ∧ ∀ e, e ∈ L → e.2 ≠ EmptyString.
Proof.
  destruct (label_mac_addresses_labels ["aa:bb:cc:dd:ee:ff"; "77:88:99:aa:bb:cc"]
              {[ "AA:BB:CC:DD:EE:FF" := "Laptop" ]}) as (L & HL & Hlabel & Hne).
  exists L. split_and!; [done| |].
  - by apply (Hlabel 1 "77:88:99:aa:bb:cc").
  - apply Hne. intros k nm [_ <-]%lookup_singleton_Some. done.
Defined.

(** ** The repository's tests, and the examples of the specification *)

Example test_label_mac_addresses_resolves_known_devices :
  label_mac_addresses
    (PStr <$> ["aa:bb:cc:dd:ee:ff"; "11:22:33:44:55:66"; "77:88:99:aa:bb:cc"])
    (<["AA:BB:CC:DD:EE:FF" := "Laptop"]> (<[upper "11:22:33:44:55:66" := "Tablet"]> ∅))
  = Ok [("AA:BB:CC:DD:EE:FF", "Laptop"); (upper "11:22:33:44:55:66", "Tablet");
        ("77:88:99:AA:BB:CC", "Unknown")].
Proof. vm_compute. reflexivity. Qed.

Example test_filter_entries_returns_all_for_empty_term :
  filter_entries [("AA:BB", "Living Room"); ("CC:DD", "Office")] EmptyString
  = [("AA:BB", "Living Room"); ("CC:DD", "Office")].
Proof. vm_compute. reflexivity. Qed.

Example test_filter_entries_matches_mac_and_name_case_insensitive :
  let entries := [("AA:BB:CC:DD:EE:FF", "Printer"); ("11:22:33:44:55:66", "Kitchen Camera")] in
  filter_entries entries "printer" = [("AA:BB:CC:DD:EE:FF", "Printer")]
  ∧ filter_entries entries "22:33" = [("11:22:33:44:55:66", "Kitchen Camera")].
Proof. split; vm_compute; reflexivity. Qed.

(** A label is taken from the mapping as it is, and a non-string address
    stops the labeller with the [AttributeError] of [mac.upper()]. *)
Example label_mac_addresses_not_a_string :
  label_mac_addresses [PStr "aa"; PNum 5] ∅ = Raise AttributeError.
Proof. vm_compute. reflexivity. Qed.

(** The legacy script cannot read a site record without [desc], which
    [fetch_sites] accepts. *)
Example resolve_site_code_missing_desc :
  resolve_site_code sites_world "https://ctl:8443" "default" = Ok "default"
  ∧ resolve_site_code sites_world "https://ctl:8443" "b7x2k" = Raise AttributeError.
Proof. split; vm_compute; reflexivity. Qed.

(** * Further properties *)

(** ** Sorting is stable *)

Lemma compare_refl (a : string) : String.compare a a = Eq.
Proof.
  induction a as [|c a IH]; simpl; [done|].
  unfold Ascii.compare. by rewrite N.compare_refl.
Qed.

Lemma ltb_irrefl (a : string) : String.ltb a a = false.
Proof. unfold String.ltb. by rewrite compare_refl. Qed.

Lemma insert_by_filter_key {A} (key : A → string) (x : A) (l : list A) (k : string) :
  filter (λ y, key y = k) (insert_by key x l) = filter (λ y, key y = k) (x :: l).
Proof.
  induction l as [|y l IH]; simpl; [done|].
  destruct (String.ltb (key y) (key x)) eqn:Hlt; [|done].
  assert (key y ≠ key x) as Hne.
  { intros Heq. rewrite Heq, ltb_irrefl in Hlt. done. }
  rewrite (filter_cons _ y), IH, !filter_cons.
  destruct (decide (key y = k)) as [Hy|Hy], (decide (key x = k)) as [Hx|Hx];
    try done.
  congruence.
Qed.

(** Elements of the same key keep their order. *)
Lemma sort_by_stable {A} (key : A → string) (l : list A) (k : string) :
  filter (λ y, key y = k) (sort_by key l) = filter (λ y, key y = k) l.
Proof.
  induction l as [|x l IH]; simpl; [done|].
  by rewrite insert_by_filter_key, !filter_cons, IH.
Qed.

Lemma sort_by_length {A} (key : A → string) (l : list A) :
  length (sort_by key l) = length l.
Proof. by rewrite sort_by_Permutation. Qed.

(** X1. [fetch_sites] returns one [Site] for each record of the response,
    none dropped and none merged, built from the record, in the ascending
    order of the lower-cased descriptions; sites whose descriptions are
    equal up to case keep the order of the response. *)
Theorem fetch_sites_sorted (w : World) (c : UniFiClient) (sites : list Site) :
  fetch_sites w c = Ok sites →
  ∃ data items unsorted,
    get_data w (sites_url c) = Ok data ∧ py_iter data = Ok items
    ∧ Forall2 (λ item s, site_fields item = Ok (code s, PStr (description s)))
              items unsorted
    ∧ sites ≡ₚ unsorted ∧ length sites = length items
    ∧ Sorted (λ a b, String.le (lower (description a)) (lower (description b))) sites
    ∧ ∀ k, filter (λ s, lower (description s) = k) sites
           = filter (λ s, lower (description s) = k) unsorted.
Proof.
  unfold fetch_sites, sites_of_data.
  intros (data & Hdata & (items & Hitems & (raw & Hraw
          & (unsorted & Hchk & [= <-])%bind_Ok)%bind_Ok)%bind_Ok)%bind_Ok.
  apply mapM_Ok_Forall2 in Hraw, Hchk.
  assert (Forall2 (λ item s, site_fields item = Ok (code s, PStr (description s)))
            items unsorted) as Hall.
  { clear Hitems. revert unsorted Hchk.
    induction Hraw as [|item f items raw Hf _ IH]; intros unsorted Hchk;
      inversion Hchk as [|? s ? unsorted' Hs Hchk']; simplify_eq; constructor.
    - apply site_checked_Ok in Hs as ->. done.
    - by apply IH. }
  exists data, items, unsorted. split_and!; [done..|apply sort_by_Permutation| | |].
  - by rewrite sort_by_length, (Forall2_length _ _ _ Hall).
  - apply (sort_by_Sorted (λ s, lower (description s))).
  - intros k. apply (sort_by_stable (λ s, lower (description s))).
Qed.

Lemma fetch_sites_sorted_witness :
  ∃ sites, fetch_sites sites_world (new_client "https://ctl:8443" false 10) = Ok sites
           ∧ length sites = 2
           ∧ Sorted (λ a b, String.le (lower (description a)) (lower (description b))) sites.
Proof.
  eexists. split; [vm_compute; reflexivity|].
  edestruct (fetch_sites_sorted sites_world (new_client "https://ctl:8443" false 10))
    as (data & items & unsorted & Hdata & Hitems & _ & _ & Hlen & Hsorted & _);
    [vm_compute; reflexivity|].
  split; [done|]. exact Hsorted.
Defined.

(** X2. [fetch_wlans] returns one profile for each record of the response,
    none dropped and none merged (two records of one name give two
    profiles), in the ascending order of the lower-cased names; profiles
    whose names are equal up to case keep the order of the response. *)
Theorem fetch_wlans_sorted (w : World) (c : UniFiClient) (site_code : string)
    (wlans : list WlanProfile) :
  fetch_wlans w c site_code = Ok wlans →
  ∃ data items unsorted,
    get_data w (wlanconf_url c site_code) = Ok data ∧ py_iter data = Ok items
    ∧ Forall2 (λ item p, wlan_fields item = Ok (PStr (name p), mac_filter_list p))
              items unsorted
    ∧ wlans ≡ₚ unsorted ∧ length wlans = length items
    ∧ Sorted (λ a b, String.le (lower (name a)) (lower (name b))) wlans
    ∧ ∀ k, filter (λ p, lower (name p) = k) wlans
           = filter (λ p, lower (name p) = k) unsorted.
Proof.
  unfold fetch_wlans, wlans_of_data.
  intros (data & Hdata & (items & Hitems & (raw & Hraw
          & (unsorted & Hchk & [= <-])%bind_Ok)%bind_Ok)%bind_Ok)%bind_Ok.
  apply mapM_Ok_Forall2 in Hraw, Hchk.
  assert (Forall2 (λ item p, wlan_fields item = Ok (PStr (name p), mac_filter_list p))
            items unsorted) as Hall.
  { clear Hitems. revert unsorted Hchk.
    induction Hraw as [|item f items raw Hf _ IH]; intros unsorted Hchk;
      inversion Hchk as [|? p ? unsorted' Hp Hchk']; simplify_eq; constructor.
    - apply wlan_checked_Ok in Hp as ->. done.
    - by apply IH. }
  exists data, items, unsorted. split_and!; [done..|apply sort_by_Permutation| | |].
  - by rewrite sort_by_length, (Forall2_length _ _ _ Hall).
  - apply (sort_by_Sorted (λ p, lower (name p))).
  - intros k. apply (sort_by_stable (λ p, lower (name p))).
Qed.

Lemma fetch_wlans_sorted_witness :
  ∃ wlans, fetch_wlans demo_world (new_client "https://ctl:8443" false 10) "default"
           = Ok wlans
           ∧ length wlans = 3.
Proof.
  eexists. split; [vm_compute; reflexivity|].
  edestruct (fetch_wlans_sorted demo_world (new_client "https://ctl:8443" false 10)
               "default")
    as (data & items & unsorted & Hdata & Hitems & _ & _ & Hlen & _);
    [vm_compute; reflexivity|].
  done.
Defined.

(** ** The WLAN that is returned *)

Lemma wlan_lookup_foldl_last (wlans : list WlanProfile) (m : gmap string WlanProfile)
    (n : string) :
  foldl (λ m wlan, <[name wlan := wlan]> m) m wlans !! n
  = match last (filter (λ p, name p = n) wlans) with
    | Some p => Some p
    | None => m !! n
    end.
Proof.
  revert m. induction wlans as [|q wlans IH]; intros m; simpl; [done|].
  rewrite IH, filter_cons. destruct (decide (name q = n)) as [<-|Hne].
  - rewrite last_cons. destruct (last _); [done|]. by rewrite lookup_insert_eq.
  - destruct (last _); [done|]. by rewrite lookup_insert_ne.
Qed.

Lemma wlan_lookup_last (wlans : list WlanProfile) (n : string) :
  wlan_lookup wlans !! n = last (filter (λ p, name p = n) wlans).
Proof.
  unfold wlan_lookup. rewrite wlan_lookup_foldl_last, lookup_empty.
  by destruct (last _).
Qed.

(** X3. [fetch_mac_filter_details] returns exactly when [fetch_wlans]
    returns, a profile has the name asked for and [fetch_known_devices] (for
    the same site) returns. The profile it returns is then the last of that
    name in the list of [fetch_wlans]: where two profiles share a name the
    later one hides the earlier. *)
Theorem fetch_mac_filter_details_returns (w : World) (c : UniFiClient)
    (site_code wlan_name : string) (wlan : WlanProfile) (K : gmap string string) :
  fetch_mac_filter_details w c site_code wlan_name = Ok (wlan, K)
  ↔ ∃ wlans, fetch_wlans w c site_code = Ok wlans
             ∧ last (filter (λ p, name p = wlan_name) wlans) = Some wlan
             ∧ fetch_known_devices w c site_code = Ok K.
Proof.
  unfold fetch_mac_filter_details, mac_filter_details_of. split.
  - intros (wlans & Hwlans & Hrest)%bind_Ok. exists wlans. split; [done|].
    rewrite wlan_lookup_last in Hrest.
    destruct (last _) as [p|]; [|done].
    apply bind_Ok in Hrest as (K' & HK & [= -> ->]). done.
  - intros (wlans & -> & Hlast & ->). simpl. by rewrite wlan_lookup_last, Hlast.
Qed.

(** ** The mapping of the known devices *)

Lemma str_truthy_upper (s : string) : str_truthy (upper s) = str_truthy s.
Proof. by destruct s. Qed.

Lemma known_device_step_entry (m m' : gmap string string) (device : pyval) :
  known_device_step m device = Ok m' →
  m' = match device_entry device with
       | Some e => <[e.1 := e.2]> m
       | None => m
       end.
Proof.
  destruct device as [| | | | |d]; try done.
  rewrite known_device_step_dict. unfold device_mac, py_or, device_entry.
  destruct (dict_get d "mac") as [| | |s| |] eqn:Hmac; simpl;
    try (destruct (truthy _) eqn:Ht; simpl; [done|]; by intros [= <-];
         destruct (_pick_name d)).
  - by intros [= <-]; destruct (_pick_name d).
  - destruct b; simpl; [done|]. by intros [= <-]; destruct (_pick_name d).
  - destruct (negb _); simpl; [done|]. by intros [= <-]; destruct (_pick_name d).
  - destruct (str_truthy s) eqn:Hs; simpl.
    + rewrite str_truthy_upper, Hs. intros [= <-]. by destruct (_pick_name d).
    + intros [= <-]. by destruct (_pick_name d).
  - destruct items; simpl; [|done]. by intros [= <-]; destruct (_pick_name d).
  - destruct fields; simpl; [|done]. by intros [= <-]; destruct (_pick_name d).
Qed.

Lemma insert_loop_last (entries : list (string * string)) (m : gmap string string)
    (k : string) :
  foldl (λ m e, <[e.1 := e.2]> m) m entries !! k
  = match last (filter (λ e, e.1 = k) entries) with
    | Some e => Some e.2
    | None => m !! k
    end.
Proof.
  revert m. induction entries as [|e entries IH]; intros m; simpl; [done|].
  rewrite IH, filter_cons. destruct (decide (e.1 = k)) as [<-|Hne].
  - rewrite last_cons. destruct (last _); [done|]. by rewrite lookup_insert_eq.
  - destruct (last _); [done|]. by rewrite lookup_insert_ne.
Qed.

Lemma known_devices_loop_foldl (devices : list pyval) (m m' : gmap string string) :
  for_each known_device_step m devices = Ok m' →
  m' = foldl (λ m e, <[e.1 := e.2]> m) m (omap device_entry devices).
Proof.
  revert m. induction devices as [|device devices IH]; intros m; simpl.
  - by intros [= <-].
  - intros (m1 & Hstep & Hrest)%bind_Ok.
    apply known_device_step_entry in Hstep as ->. apply IH in Hrest as ->.
    by destruct (device_entry device).
Qed.

(** X4. The mapping of [fetch_known_devices] holds, under each key, the
    display name of the last device of the roster whose upper-cased MAC is
    that key and that has a usable name: a later device replaces an earlier
    one, also when their MACs differ in case only; a key is absent exactly
    when no such device exists. *)
Theorem fetch_known_devices_last_wins (w : World) (c : UniFiClient) (site_code : string)
    (m : gmap string string) :
  fetch_known_devices w c site_code = Ok m →
  ∃ data devices,
    get_data w (alluser_url c site_code) = Ok data ∧ py_iter data = Ok devices
    ∧ ∀ k, m !! k = snd <$> last (filter (λ e, e.1 = k) (omap device_entry devices)).
Proof.
  unfold fetch_known_devices, known_devices_of_data.
  intros (data & Hdata & (devices & Hdevices & Hm)%bind_Ok)%bind_Ok.
  exists data, devices. split_and!; [done..|]. intros k.
  apply known_devices_loop_foldl in Hm as ->.
  rewrite insert_loop_last, lookup_empty. by destruct (last _).
Qed.

Lemma fetch_known_devices_last_wins_witness :
  ∃ m, fetch_known_devices roster_world (new_client "https://ctl:8443/" false 10) "default"
       = Ok m
       ∧ m !! "AA:BB:CC:DD:EE:FF" = Some "laptop" ∧ m !! "11:22:33:44:55:66" = None.
Proof.
  eexists. split; [vm_compute; reflexivity|].
  edestruct (fetch_known_devices_last_wins roster_world
               (new_client "https://ctl:8443/" false 10) "default")
    as (data & devices & Hdata & Hdevices & Hm); [vm_compute; reflexivity|].
  vm_compute in Hdata. injection Hdata as <-.
  vm_compute in Hdevices. injection Hdevices as <-.
  split; rewrite Hm; vm_compute; reflexivity.
Defined.

Lemma known_device_step_ok (m : gmap string string) (device : pyval) :
  device_ok device → ∃ m', known_device_step m device = Ok m'.
Proof.
  intros (d & -> & Hmac). rewrite known_device_step_dict.
  destruct Hmac as [Hmac|[s Hmac]].
  - rewrite device_mac_falsy by done. by eexists.
  - unfold device_mac, py_or. rewrite Hmac. simpl. destruct (str_truthy s); by eexists.
Qed.

Lemma known_device_step_not_ok (m m' : gmap string string) (device : pyval) :
  known_device_step m device = Ok m' → device_ok device.
Proof.
  destruct device as [| | | | |d]; try done.
  rewrite known_device_step_dict. unfold device_mac, py_or.
  destruct (truthy (dict_get d "mac")) eqn:Ht; [|intros _; exists d; by auto].
  destruct (dict_get d "mac") as [| | |s| |] eqn:Hmac; try done.
  intros _. exists d. split; [done|]. right. by exists s.
Qed.

(** X5. [fetch_known_devices] gets through a roster exactly when every
    device is an object whose [mac] is false (missing, null, empty) or a
    string; otherwise, at the first device that is not, it raises
    [AttributeError] and no mapping is returned. *)
Theorem known_devices_roster_errors (devices : list pyval) :
  match known_devices_of_data (PList devices) with
  | Ok _ => Forall device_ok devices
  | Raise e => e = AttributeError ∧ Exists (λ device, ¬ device_ok device) devices
  end.
Proof.
  unfold known_devices_of_data. simpl. generalize (∅ : gmap string string).
  induction devices as [|device devices IH]; intros m; simpl; [done|].
  destruct (known_device_step m device) as [m'|e] eqn:Hstep; simpl.
  - pose proof (known_device_step_not_ok _ _ _ Hstep) as Hok.
    specialize (IH m'). destruct (for_each _ _ _).
    + by constructor.
    + destruct IH as [-> IH]. split; [done|]. by right.
  - split; [by eapply known_device_step_Raise|]. left.
    intros [m' Hm']%(known_device_step_ok m). by rewrite Hstep in Hm'.
Qed.

(** ** Trimming *)

Lemma lstrip_head (s : string) :
  lstrip s = EmptyString ∨ ∃ c t, lstrip s = String c t ∧ is_space c = false.
Proof.
  induction s as [|c s IH]; simpl; [by left|].
  destruct (is_space c) eqn:Hc; [done|]. right. by exists c, s.
Qed.

Lemma rstrip_cons_keep (c : ascii) (s : string) :
  is_space c = false → rstrip (String c s) = String c (rstrip s).
Proof. intros Hc. simpl. rewrite Hc. by destruct (rstrip s). Qed.


(** No text ends with white space once [rstrip] has run. *)
Lemma rstrip_last (s t : string) (c : ascii) :
  rstrip s = t +:+ String c EmptyString → is_space c = false.
Proof.
  revert t. induction s as [|c' s IH]; intros t; simpl.
  - by destruct t.
  - destruct (rstrip s) as [|c'' r] eqn:Hr.
    + destruct (is_space c') eqn:Hc'; [by destruct t|].
      destruct t as [|? [|??]]; [|done..]. by intros [= <-].
    + destruct t as [|c3 t]; [done|]. rewrite app_cons. intros [= _ Ht].
      by eapply IH.
Qed.

Lemma strip_trimmed (s : string) : trimmed (strip s).
Proof.
  unfold strip. split.
  - intros c t Hs. destruct (lstrip_head s) as [Hl|(c' & t' & Hl & Hc')].
    + by rewrite Hl in Hs.
    + rewrite Hl, rstrip_cons_keep in Hs by done. by injection Hs as <- _.
  - intros t c. apply rstrip_last.
Qed.




(** ** Case *)

Lemma upper_char_idemp (c : ascii) : upper_char (upper_char c) = upper_char c.
Proof. by destruct c as [[] [] [] [] [] [] [] []]. Qed.

Lemma lower_upper_char (c : ascii) : lower_char (upper_char c) = lower_char c.
Proof. by destruct c as [[] [] [] [] [] [] [] []]. Qed.

Lemma upper_lower_char (c : ascii) : upper_char (lower_char c) = upper_char c.
Proof. by destruct c as [[] [] [] [] [] [] [] []]. Qed.

Lemma lower_char_idemp (c : ascii) : lower_char (lower_char c) = lower_char c.
Proof. by destruct c as [[] [] [] [] [] [] [] []]. Qed.

Lemma upper_idemp (s : string) : upper (upper s) = upper s.
Proof. induction s as [|c s IH]; simpl; [done|]. by rewrite upper_char_idemp, IH. Qed.

Lemma upper_lower (s : string) : upper (lower s) = upper s.
Proof. induction s as [|c s IH]; simpl; [done|]. by rewrite upper_lower_char, IH. Qed.

Lemma lower_upper (s : string) : lower (upper s) = lower s.
Proof. induction s as [|c s IH]; simpl; [done|]. by rewrite lower_upper_char, IH. Qed.

Lemma lower_idemp (s : string) : lower (lower s) = lower s.
Proof. induction s as [|c s IH]; simpl; [done|]. by rewrite lower_char_idemp, IH. Qed.

(** Two texts are equal up to case, whichever way the case is folded. *)
Lemma upper_eq_lower_eq (s t : string) : upper s = upper t ↔ lower s = lower t.
Proof.
  split; intros H.
  - by rewrite <-(lower_upper s), H, lower_upper.
  - by rewrite <-(upper_lower s), H, upper_lower.
Qed.

(** ** More on the labeller *)

(** X7. [label_mac_addresses] does not see the case of the addresses: two
    lists that are equal up to the case of their letters get the same
    entries, with the same (upper-cased) addresses and the same labels. *)
Theorem label_mac_addresses_case_insensitive (M M' : list string)
    (K : gmap string string) :
  lower <$> M = lower <$> M' →
  label_mac_addresses (PStr <$> M) K = label_mac_addresses (PStr <$> M') K.
Proof.
  intros HM. rewrite !label_mac_addresses_strings. f_equal.
  revert M' HM. induction M as [|mac M IH]; intros [|mac' M'] HM; try done.
  injection HM as Hmac HM. apply upper_eq_lower_eq in Hmac.
  simpl. unfold label_of. rewrite Hmac. f_equal. by apply IH.
Qed.

Lemma label_mac_addresses_case_insensitive_witness :
  label_mac_addresses (PStr <$> ["aa:bb:cc:dd:ee:ff"]) {[ "AA:BB:CC:DD:EE:FF" := "Laptop" ]}
  = label_mac_addresses (PStr <$> ["Aa:bB:CC:dd:EE:ff"]) {[ "AA:BB:CC:DD:EE:FF" := "Laptop" ]}.
Proof.
  apply (label_mac_addresses_case_insensitive ["aa:bb:cc:dd:ee:ff"] ["Aa:bB:CC:dd:EE:ff"]).
  vm_compute. reflexivity.
Defined.

(** X8. The addresses [label_mac_addresses] returns are in normal form:
    upper-casing them changes nothing, and labelling the returned addresses
    again gives the same entries. *)
Theorem label_mac_addresses_normal_form (M : list string) (K : gmap string string) :
  ∃ L, label_mac_addresses (PStr <$> M) K = Ok L
       ∧ Forall (λ e, upper e.1 = e.1) L
       ∧ label_mac_addresses (PStr <$> L.*1) K = Ok L.
Proof.
  eexists. split; [apply label_mac_addresses_strings|]. split.
  - apply Forall_fmap, Forall_forall. intros mac _. simpl. apply upper_idemp.
  - rewrite label_mac_addresses_strings. f_equal.
    rewrite <-!list_fmap_compose. apply list_fmap_ext. intros _ mac _. simpl.
    unfold label_of. by rewrite upper_idemp.
Qed.

Lemma label_loop_errors (K : gmap string string) (macs : list pyval)
    (acc : list (string * string)) :
  match for_each (label_step K) acc macs with
  | Ok L => Forall is_str macs ∧ length L = length acc + length macs
  | Raise e => e = AttributeError ∧ Exists (λ v, ¬ is_str v) macs
  end.
Proof.
  revert acc. induction macs as [|v macs IH]; intros acc; simpl.
  - split; [done|lia].
  - destruct v as [| | |s| |]; simpl;
      try (split; [done|]; left; by intros [? [=]]).
    specialize (IH (acc ++ [(upper s, default "Unknown" (K !! upper s))])).
    destruct (for_each _ _ _) as [L|e].
    + destruct IH as [Hall Hlen]. split; [constructor; [by exists s|done]|].
      rewrite Hlen, length_app. simpl. lia.
    + destruct IH as [-> Hex]. split; [done|]. by right.
Qed.

(** X9. [label_mac_addresses] returns exactly when every address is a
    string, and then with one entry per address; otherwise it raises the
    [AttributeError] of [mac.upper()] and returns no entry at all, not even
    those of the addresses before the offending one. *)
Theorem label_mac_addresses_errors (macs : list pyval) (K : gmap string string) :
  match label_mac_addresses macs K with
  | Ok L => Forall is_str macs ∧ length L = length macs
  | Raise e => e = AttributeError ∧ Exists (λ v, ¬ is_str v) macs
  end.
Proof. apply (label_loop_errors K macs []). Qed.

(** X10. The client's two halves fit: whatever the case in which the roster
    and the filter list write a MAC, an address of the filter list that is,
    up to case, the MAC of a roster device with a usable name gets a label
    from the mapping of [fetch_known_devices] (the name of the last such
    device), not the fallback for a missing key. *)
Theorem known_device_is_labelled (w : World) (c : UniFiClient) (site_code : string)
    (m : gmap string string) (data : pyval) (devices : list pyval) (d : pydict)
    (s nm a : string) :
  fetch_known_devices w c site_code = Ok m →
  get_data w (alluser_url c site_code) = Ok data → py_iter data = Ok devices →
  PDict d ∈ devices → dict_get d "mac" = PStr s → s ≠ EmptyString →
  _pick_name d = Some nm →
  lower a = lower s →
  ∃ nm', m !! upper s = Some nm' ∧ nm' ≠ EmptyString
         ∧ label_mac_addresses [PStr a] m = Ok [(upper s, nm')].
Proof.
  intros Hm Hdata Hdevices Hd Hmac Hs Hnm Ha.
  assert (is_Some (m !! upper s)) as [nm' Hnm'].
  { unfold fetch_known_devices, known_devices_of_data in Hm.
    rewrite Hdata in Hm. simpl in Hm. rewrite Hdevices in Hm. simpl in Hm.
    apply known_devices_loop_foldl in Hm as ->.
    rewrite insert_loop_last, lookup_empty.
    assert ((upper s, nm) ∈ filter (λ e, e.1 = upper s) (omap device_entry devices))
      as Hin.
    { apply list_elem_of_filter. split; [done|]. apply list_elem_of_omap.
      exists (PDict d). split; [done|]. simpl. rewrite Hmac, Hnm.
      by apply str_truthy_true in Hs as ->. }
    destruct (last _) as [e|] eqn:Hlast; [by eexists|].
    apply last_None in Hlast. rewrite Hlast in Hin. by apply elem_of_nil in Hin. }
  exists nm'. split_and!; [done|by eapply fetch_known_devices_names_nonempty|].
  apply upper_eq_lower_eq in Ha.
  unfold label_mac_addresses, label_step. simpl. by rewrite Ha, Hnm'.
Qed.

Lemma known_device_is_labelled_witness :
  label_mac_addresses [PStr "Aa:Bb:Cc:Dd:Ee:Ff"] {[ "AA:BB:CC:DD:EE:FF" := "laptop" ]}
  = Ok [("AA:BB:CC:DD:EE:FF", "laptop")].
Proof.
  edestruct (known_device_is_labelled roster_world
               (new_client "https://ctl:8443/" false 10) "default"
               {[ "AA:BB:CC:DD:EE:FF" := "laptop" ]} sample_roster
               [PDict [("mac", PStr "aa:bb:cc:dd:ee:ff"); ("hostname", PStr "laptop")];
                PDict [("hostname", PStr "ghost")];
                PDict [("mac", PStr EmptyString); ("name", PStr "nobody")];
                PDict [("mac", PStr "11:22:33:44:55:66"); ("oui", PNone)]]
               [("mac", PStr "aa:bb:cc:dd:ee:ff"); ("hostname", PStr "laptop")]
               "aa:bb:cc:dd:ee:ff" "laptop" "Aa:Bb:Cc:Dd:Ee:Ff")
    as (nm' & Hnm' & _ & Hlabel).
  - vm_compute. reflexivity.
  - vm_compute. reflexivity.
  - reflexivity.
  - by left.
  - reflexivity.
  - done.
  - reflexivity.
  - vm_compute. reflexivity.
  - vm_compute in Hnm'. injection Hnm' as <-. exact Hlabel.
Defined.

(** ** More on the entry filter *)

Lemma str_app_assoc (s t u : string) : (s +:+ t) +:+ u = s +:+ t +:+ u.
Proof. induction s as [|c s IH]; [done|]. by rewrite !app_cons, IH. Qed.

Lemma filter_entries_ci (E : list (string * string)) (T : string) :
  filter_entries E T = filter (λ e, ci_substring T e.1 ∨ ci_substring T e.2) E.
Proof.
  destruct (decide (T = EmptyString)) as [->|HT].
  - change (filter_entries E EmptyString) with E. symmetry. apply filter_all.
    intros e. left. apply ci_substring_empty.
  - rewrite filter_entries_filter by done. apply list_filter_iff.
    intros e. apply entry_matches_ci.
Qed.

(** X11. Filtering twice by the same term is filtering once, and filtering
    by two terms gives the same entries in whichever order the terms are
    applied. *)
Theorem filter_entries_idempotent_commutes (E : list (string * string)) (T T' : string) :
  filter_entries (filter_entries E T) T = filter_entries E T
  ∧ filter_entries (filter_entries E T) T' = filter_entries (filter_entries E T') T.
Proof.
  rewrite !filter_entries_ci, !list_filter_filter. split.
  - apply list_filter_iff. tauto.
  - apply list_filter_iff. tauto.
Qed.

Lemma ci_substring_trans (T1 T2 s : string) :
  ci_substring T1 T2 → ci_substring T2 s → ci_substring T1 s.
Proof.
  intros (a & m & b & -> & Hm) (p & mid & q & -> & Hmid).
  unfold lower in Hmid. rewrite !str_map_app in Hmid.
  apply str_map_app_inv in Hmid as (a' & rest & -> & _ & Hrest).
  apply str_map_app_inv in Hrest as (m' & b' & -> & Hm' & _).
  exists (p +:+ a'), m', (b' +:+ q). split.
  - by rewrite !str_app_assoc.
  - unfold lower in *. by rewrite Hm'.
Qed.

(** X12. A longer search keeps no more: when the term [T1] occurs in the
    term [T2] up to case (as when the user types on), the entries kept for
    [T2] are among those kept for [T1], in the same order, and are what
    filtering the entries kept for [T1] by [T2] gives. *)
Theorem filter_entries_narrows (E : list (string * string)) (T1 T2 : string) :
  ci_substring T1 T2 →
  filter_entries E T2 = filter_entries (filter_entries E T1) T2
  ∧ sublist (filter_entries E T2) (filter_entries E T1).
Proof.
  intros HT.
  assert (filter_entries E T2 = filter_entries (filter_entries E T1) T2) as Heq.
  { rewrite !filter_entries_ci, list_filter_filter. apply list_filter_iff.
    intros e. split; [|tauto]. intros He. split; [done|].
    destruct He as [He|He]; [left|right]; by eapply ci_substring_trans. }
  split; [done|]. rewrite Heq, (filter_entries_ci (filter_entries E T1)).
  apply sublist_filter.
Qed.

Lemma filter_entries_narrows_witness :
  sublist (filter_entries [("AA:BB:CC:DD:EE:FF", "Printer"); ("11:22:33:44:55:66", "Kitchen")]
             "PRINT")
          (filter_entries [("AA:BB:CC:DD:EE:FF", "Printer"); ("11:22:33:44:55:66", "Kitchen")]
             "in").
Proof.
  apply (filter_entries_narrows _ "in" "PRINT").
  by exists "PR", "IN", "T".
Defined.

(** X13. The case of the search term does not matter: two terms that are
    equal up to case keep the same entries. *)
Theorem filter_entries_term_case (E : list (string * string)) (T T' : string) :
  lower T = lower T' → filter_entries E T = filter_entries E T'.
Proof.
  intros HT. rewrite !filter_entries_ci. apply list_filter_iff.
  intros e. unfold ci_substring. by rewrite HT.
Qed.

Lemma filter_entries_term_case_witness :
  filter_entries [("AA:BB:CC:DD:EE:FF", "Printer")] "pRiNt"
  = filter_entries [("AA:BB:CC:DD:EE:FF", "Printer")] "PRINT".
Proof. apply filter_entries_term_case. vm_compute. reflexivity. Defined.

(** ** The search box *)

Lemma all_space_cons (c : ascii) (s : string) :
  all_space (String c s) ↔ is_space c = true ∧ all_space s.
Proof. exact (Forall_cons (λ c, is_space c = true) c _). Qed.

Lemma lstrip_all_space_app (pre t : string) :
  all_space pre → lstrip (pre +:+ t) = lstrip t.
Proof.
  induction pre as [|c pre IH]; [done|].
  intros [Hc Hpre]%all_space_cons. rewrite app_cons. simpl. rewrite Hc. by apply IH.
Qed.

Lemma lstrip_all_space (post : string) : all_space post → lstrip post = EmptyString.
Proof.
  induction post as [|c post IH]; [done|].
  intros [Hc Hpost]%all_space_cons. simpl. rewrite Hc. by apply IH.
Qed.

Lemma rstrip_all_space (post : string) : all_space post → rstrip post = EmptyString.
Proof.
  induction post as [|c post IH]; [done|].
  intros [Hc Hpost]%all_space_cons. simpl. by rewrite IH, Hc.
Qed.

Lemma rstrip_app_all_space (t post : string) :
  all_space post → rstrip (t +:+ post) = rstrip t.
Proof.
  intros Hpost. induction t as [|c t IH].
  - by apply rstrip_all_space.
  - rewrite app_cons. simpl. by rewrite IH.
Qed.

Lemma strip_padded (pre T post : string) :
  all_space pre → all_space post → strip T = T → strip (pre +:+ T +:+ post) = T.
Proof.
  intros Hpre Hpost HT. unfold strip. rewrite lstrip_all_space_app by done.
  destruct T as [|c t].
  - change (EmptyString +:+ post) with post. by rewrite lstrip_all_space.
  - assert (is_space c = false) as Hc.
    { pose proof (strip_trimmed (String c t)) as [Hhead _]. rewrite HT in Hhead.
      by eapply Hhead. }
    rewrite app_cons. cbn [lstrip]. rewrite Hc, <-app_cons, rstrip_app_all_space by done.
    unfold strip in HT. cbn [lstrip] in HT. by rewrite Hc in HT.
Qed.

(** X14. The search box is trimmed before it filters the table: white space
    around the term changes nothing, and a search of white space only shows
    every entry. *)
Theorem refresh_table_ignores_padding (E : list (string * string))
    (pre T post : string) :
  all_space pre → all_space post → strip T = T →
  refresh_table_rows E (pre +:+ T +:+ post) = filter_entries E T
  ∧ refresh_table_rows E (pre +:+ post) = E.
Proof.
  intros Hpre Hpost HT. unfold refresh_table_rows. split.
  - by rewrite strip_padded.
  - change (pre +:+ post) with (pre +:+ EmptyString +:+ post).
    by rewrite (strip_padded pre EmptyString post).
Qed.

Lemma refresh_table_ignores_padding_witness :
  refresh_table_rows [("AA:BB", "Living Room"); ("CC:DD", "Office")] "  off "
  = filter_entries [("AA:BB", "Living Room"); ("CC:DD", "Office")] "off".
Proof.
  apply (refresh_table_ignores_padding _ "  " "off" " ").
  - by repeat constructor.
  - by repeat constructor.
  - vm_compute. reflexivity.
Defined.

(** ** The printed table *)

Lemma str_length_app (s t : string) :
  String.length (s +:+ t) = String.length s + String.length t.
Proof. induction s as [|c s IH]; [done|]. rewrite app_cons. simpl. by rewrite IH. Qed.

Lemma str_length_replicate (n : nat) (c : ascii) :
  String.length (String.string_of_list_ascii (replicate n c)) = n.
Proof. induction n as [|n IH]; simpl; [done|]. by rewrite IH. Qed.

Lemma ljust_length (s : string) (width : nat) :
  String.length (ljust s width) = String.length s `max` width.
Proof. unfold ljust. rewrite str_length_app, str_length_replicate. lia. Qed.

Lemma ljust_length_le (s : string) (width : nat) :
  String.length s ≤ width → String.length (ljust s width) = width.
Proof. rewrite ljust_length. lia. Qed.


Lemma print_table_cons (e0 : string * string) (entries : list (string * string)) :
  print_table (e0 :: entries)
  = let es := e0 :: entries in
    let mac_width := max_list (String.length <$> es.*1) in
    let name_width := max_list (String.length <$> es.*2) in
    Line (ljust "MAC" mac_width +:+ "  " +:+ ljust "Name" name_width)
    :: Line (dashes mac_width +:+ "  " +:+ dashes name_width)
    :: (Line <$> ((λ e, ljust e.1 mac_width +:+ "  " +:+ ljust e.2 name_width) <$> es)).
Proof.
  cbv zeta. unfold print_table. cbv beta iota.
  do 2 f_equal. exact (list_fmap_compose _ Line _).
Qed.



(** ** What the fetches raise *)

Lemma raise_for_status_error (r : http_outcome) (e : exn) :
  raise_for_status r = Raise e →
  e = RequestException ∨ ∃ status, e = HTTPError status ∧ 400 ≤ status < 600.
Proof.
  destruct r as [|status body]; [intros [= <-]; by left|].
  unfold raise_for_status.
  destruct (400 <=? status) eqn:Hlo, (status <? 600) eqn:Hhi; cbn [andb];
    try (by intros [=]).
  intros [= <-]. right. exists status. split; [done|].
  apply Nat.leb_le in Hlo. apply Nat.ltb_lt in Hhi. lia.
Qed.

Lemma get_data_error (w : World) (url : string) (e : exn) :
  get_data w url = Raise e → fetch_error e.
Proof.
  unfold get_data, fetch_error.
  destruct (raise_for_status (http_get w url)) as [body|e'] eqn:Hst; simpl.
  - destruct body as [[| | | | |d]|]; simpl; intros [= <-]; tauto.
  - intros [= <-]. apply raise_for_status_error in Hst. tauto.
Qed.

Lemma site_fields_error (item : pyval) (e : exn) :
  site_fields item = Raise e → e = AttributeError.
Proof. destruct item; simpl; by intros [= <-]. Qed.

Lemma site_checked_error (f : pyval * pyval) (e : exn) :
  site_checked f = Raise e → e = AttributeError.
Proof. destruct f as [? []]; simpl; by intros [= <-]. Qed.

Lemma sites_of_data_error (data : pyval) (e : exn) :
  sites_of_data data = Raise e → e = AttributeError ∨ e = TypeError.
Proof.
  unfold sites_of_data.
  destruct (py_iter data) as [items|e'] eqn:Hitems; simpl;
    [|intros [= <-]; right; by eapply py_iter_Raise].
  destruct (mapM site_fields items) as [raw|e'] eqn:Hraw; simpl.
  - destruct (mapM site_checked raw) as [sites|e'] eqn:Hchk; simpl; [done|].
    intros [= <-]. apply mapM_Raise in Hchk as (f & _ & Hf).
    left. by eapply site_checked_error.
  - intros [= <-]. apply mapM_Raise in Hraw as (item & _ & Hitem).
    left. by eapply site_fields_error.
Qed.

Lemma wlans_of_data_error (data : pyval) (e : exn) :
  wlans_of_data data = Raise e → e = AttributeError ∨ e = TypeError.
Proof.
  unfold wlans_of_data.
  destruct (py_iter data) as [items|e'] eqn:Hitems; simpl;
    [|intros [= <-]; right; by eapply py_iter_Raise].
  destruct (mapM wlan_fields items) as [raw|e'] eqn:Hraw; simpl.
  - destruct (mapM wlan_checked raw) as [wlans|e'] eqn:Hchk; simpl; [done|].
    intros [= <-]. apply mapM_Raise in Hchk as (f & _ & Hf).
    left. by eapply wlan_checked_Raise.
  - intros [= <-]. apply mapM_Raise in Hraw as (item & _ & Hitem).
    by eapply wlan_fields_Raise.
Qed.

Lemma known_devices_of_data_error (data : pyval) (e : exn) :
  known_devices_of_data data = Raise e → e = AttributeError ∨ e = TypeError.
Proof.
  unfold known_devices_of_data.
  destruct (py_iter data) as [devices|e'] eqn:Hdevices; simpl;
    [|intros [= <-]; right; by eapply py_iter_Raise].
  intros (m & device & _ & Hstep)%for_each_Raise. left.
  by eapply known_device_step_Raise.
Qed.

Lemma fetch_wlans_error (w : World) (c : UniFiClient) (site_code : string) (e : exn) :
  fetch_wlans w c site_code = Raise e → fetch_error e.
Proof.
  unfold fetch_wlans.
  destruct (get_data w _) as [data|e'] eqn:Hdata; simpl.
  - intros H%wlans_of_data_error. unfold fetch_error. tauto.
  - intros [= <-]. by eapply get_data_error.
Qed.

Lemma fetch_known_devices_error (w : World) (c : UniFiClient) (site_code : string)
    (e : exn) :
  fetch_known_devices w c site_code = Raise e → fetch_error e.
Proof.
  unfold fetch_known_devices.
  destruct (get_data w _) as [data|e'] eqn:Hdata; simpl.
  - intros H%known_devices_of_data_error. unfold fetch_error. tauto.
  - intros [= <-]. by eapply get_data_error.
Qed.

Lemma fetch_mac_filter_details_error (w : World) (c : UniFiClient)
    (site_code wlan_name : string) (e : exn) :
  fetch_mac_filter_details w c site_code wlan_name = Raise e →
  fetch_error e ∨ ∃ msg, e = ValueError msg.
Proof.
  unfold fetch_mac_filter_details, mac_filter_details_of.
  destruct (fetch_wlans w c site_code) as [wlans|e'] eqn:Hwlans; simpl;
    [|intros [= <-]; left; by eapply fetch_wlans_error].
  destruct (wlan_lookup wlans !! wlan_name); [|intros [= <-]; right; by eexists].
  destruct (fetch_known_devices w c site_code) as [K|e'] eqn:HK; simpl; [done|].
  intros [= <-]. left. by eapply fetch_known_devices_error.
Qed.

(** X16. What a caller has to expect from the client. [login] raises only
    for a request without response or with a 4xx or 5xx status. The three
    fetches raise only that, the [JSONDecodeError] of a body that is no
    JSON, or the [AttributeError] or [TypeError] of data of another shape
    than expected; [fetch_mac_filter_details] raises, besides, only its own
    [ValueError]. *)
Theorem client_exceptions (w : World) (c : UniFiClient)
    (username password site_code wlan_name : string) :
  match login w c username password with
  | Ok _ => True
  | Raise e => e = RequestException ∨ ∃ status, e = HTTPError status ∧ 400 ≤ status < 600
  end
  ∧ match fetch_sites w c with Ok _ => True | Raise e => fetch_error e end
  ∧ match fetch_wlans w c site_code with Ok _ => True | Raise e => fetch_error e end
  ∧ match fetch_known_devices w c site_code with
    | Ok _ => True
    | Raise e => fetch_error e
    end
  ∧ match fetch_mac_filter_details w c site_code wlan_name with
    | Ok _ => True
    | Raise e => fetch_error e ∨ ∃ msg, e = ValueError msg
    end.
Proof.
  split_and!.
  - unfold login.
    destruct (raise_for_status _) as [body|e] eqn:Hst; simpl; [done|].
    by eapply raise_for_status_error.
  - unfold fetch_sites. destruct (get_data w _) as [data|e] eqn:Hdata; simpl.
    + destruct (sites_of_data data) as [sites|e] eqn:Hsites; [done|].
      apply sites_of_data_error in Hsites. unfold fetch_error. tauto.
    + by eapply get_data_error.
  - destruct (fetch_wlans _ _ _) eqn:H; [done|]. by eapply fetch_wlans_error.
  - destruct (fetch_known_devices _ _ _) eqn:H; [done|].
    by eapply fetch_known_devices_error.
  - destruct (fetch_mac_filter_details _ _ _ _) eqn:H; [done|].
    by eapply fetch_mac_filter_details_error.
Qed.

(** ** The command line *)

Lemma cli_fetch_Exception (w : World) (args : Args) (e : exn) :
  cli_fetch w args = Raise e → is_Exception e = true.
Proof.
  unfold cli_fetch, login.
  destruct (raise_for_status _) as [body|e'] eqn:Hst; simpl.
  - intros [H|[msg ->]]%fetch_mac_filter_details_error; [|done].
    by destruct H as [->|[(? & -> & _)|[->|[->| ->]]]].
  - intros [= <-]. by apply raise_for_status_error in Hst as [->|(? & -> & _)].
Qed.

(** X17. [ensure_cli_args] accepts exactly the command lines that give
    [--url], [--user], [--site] and [--wlan], each with a value that is not
    empty; [--password] is not among them. When it refuses, [run_cli] ends
    with its [SystemExit] before it has printed, prompted or requested
    anything: the outcome is the same in every world. *)
Theorem ensure_cli_args_required (args : Args) :
  match ensure_cli_args args with
  | Ok _ =>
      given (arg_url args) = true ∧ given (arg_user args) = true
      ∧ given (arg_site args) = true ∧ given (arg_wlan args) = true
  | Raise e =>
      (∃ msg, e = SystemExit msg)
      ∧ ¬ (given (arg_url args) = true ∧ given (arg_user args) = true
           ∧ given (arg_site args) = true ∧ given (arg_wlan args) = true)
      ∧ ∀ w, run_cli w args = ([], Raise e)
  end.
Proof.
  assert (∀ w, run_cli w args
    = match ensure_cli_args args with
      | Raise e => ([], Raise e)
      | Ok _ => run_cli w args
      end) as Hrun.
  { intros w. unfold run_cli. by destruct (ensure_cli_args args). }
  revert Hrun. unfold ensure_cli_args. rewrite !filter_cons, filter_nil. simpl.
  destruct (given (arg_url args)), (given (arg_user args)),
    (given (arg_site args)), (given (arg_wlan args)); simpl; intros Hrun;
    first [done | split_and!; [by eexists|by intros (?&?&?&?)|done]].
Qed.

Lemma run_cli_unfold (w : World) (args : Args) :
  ensure_cli_args args = Ok () →
  run_cli w args
  = match cli_fetch w args with
    | Raise e => if is_Exception e then ([ErrorLine e], Ok 1%Z) else ([], Raise e)
    | Ok (wlan, known_devices) =>
        match label_mac_addresses (mac_filter_list wlan) known_devices with
        | Raise e => ([], Raise e)
        | Ok labelled =>
            if given (arg_out args) then
              match export_results w labelled (default EmptyString (arg_out args))
                      (arg_format args) with
              | Raise e => ([], Raise e)
              | Ok _ =>
                  ([Line ("Exported " +:+ pretty (length labelled) +:+ " entries to "
                          +:+ default EmptyString (arg_out args) +:+ " ("
                          +:+ arg_format args +:+ ").")], Ok 0%Z)
              end
            else (print_table labelled, Ok 0%Z)
        end
    end.
Proof. intros Hargs. unfold run_cli, cli_fetch. by rewrite Hargs. Qed.

Lemma print_table_lines (entries : list (string * string)) :
  ∃ lines, print_table entries = Line <$> lines.
Proof.
  destruct entries as [|e0 entries].
  - by exists ["No MAC addresses found."].
  - rewrite print_table_cons. cbv zeta. by eexists (_ :: _ :: _).
Qed.

(** X18. The exit code of [run_cli], for a command line that
    [ensure_cli_args] accepts. When the login or the fetch raises, [run_cli]
    prints the one error line and returns 1. When both succeed it never
    returns 1 and prints no error line: it returns 0 after the table or the
    export notice, or an exception of the labelling or of the export
    escapes from it. *)
Theorem run_cli_exit_codes (w : World) (args : Args) :
  ensure_cli_args args = Ok () →
  match cli_fetch w args with
  | Raise e => run_cli w args = ([ErrorLine e], Ok 1%Z)
  | Ok _ =>
      (∃ lines, run_cli w args = (Line <$> lines, Ok 0%Z))
      ∨ (∃ e, run_cli w args = ([], Raise e))
  end.
Proof.
  intros Hargs. rewrite (run_cli_unfold w args Hargs).
  destruct (cli_fetch w args) as [[wlan K]|e] eqn:Hfetch.
  - destruct (label_mac_addresses _ _) as [labelled|e]; [|right; by eexists].
    destruct (given (arg_out args)).
    + destruct (export_results _ _ _ _); [left; by eexists [_]|right; by eexists].
    + left. destruct (print_table_lines labelled) as [lines ->]. by eexists.
  - by rewrite (cli_fetch_Exception _ _ _ Hfetch).
Qed.

Lemma run_cli_exit_codes_witness :
  run_cli demo_world (demo_args "nowhere" "Office" None)
  = ([ErrorLine (HTTPError 404)], Ok 1%Z).
Proof.
  pose proof (run_cli_exit_codes demo_world (demo_args "nowhere" "Office" None)) as H.
  assert (cli_fetch demo_world (demo_args "nowhere" "Office" None)
          = Raise (HTTPError 404)) as Hfetch by (vm_compute; reflexivity).
  rewrite Hfetch in H. apply H. reflexivity.
Defined.

(** X19. The export is outside the [try] of [run_cli]: when the fetch and
    the labelling have succeeded and [--out] is given, an exception of
    [export_results] escapes from [run_cli]; no error line is printed and no
    exit code is returned. So does the [RuntimeError] of the format [xlsx]
    when pandas cannot be imported. *)
Theorem run_cli_export_failure_escapes (w : World) (args : Args) (wlan : WlanProfile)
    (K : gmap string string) (labelled : list (string * string)) (e : exn) :
  ensure_cli_args args = Ok () →
  cli_fetch w args = Ok (wlan, K) →
  label_mac_addresses (mac_filter_list wlan) K = Ok labelled →
  given (arg_out args) = true →
  export_results w labelled (default EmptyString (arg_out args)) (arg_format args)
    = Raise e →
  run_cli w args = ([], Raise e)
  ∧ (lower (arg_format args) = "xlsx" → pandas_to_excel w = None →
     ∃ msg, e = RuntimeError msg).
Proof.
  intros Hargs Hfetch Hlabel Hout Hexport. split.
  - by rewrite (run_cli_unfold w args Hargs), Hfetch, Hlabel, Hout, Hexport.
  - intros Hfmt Hpandas. unfold export_results in Hexport.
    rewrite Hfmt, Hpandas in Hexport. simpl in Hexport. injection Hexport as <-.
    by eexists.
Qed.

Lemma run_cli_export_failure_escapes_witness :
  ∃ msg, run_cli demo_world (demo_export_args "macs.xlsx" "xlsx")
         = ([], Raise (RuntimeError msg)).
Proof.
  eexists.
  eapply (run_cli_export_failure_escapes demo_world (demo_export_args "macs.xlsx" "xlsx")
            {| name := "Office";
               mac_filter_list := [PStr "aa:bb:cc:dd:ee:ff"; PStr "77:88:99:aa:bb:cc"] |}
            {[ "AA:BB:CC:DD:EE:FF" := "laptop" ]}
            [("AA:BB:CC:DD:EE:FF", "laptop"); ("77:88:99:AA:BB:CC", "Unknown")]).
  - reflexivity.
  - vm_compute. reflexivity.
  - vm_compute. reflexivity.
  - reflexivity.
  - vm_compute. reflexivity.
Defined.

(** ** The base address *)

Lemma rstrip_slash_app (s : string) : ∃ n, s = rstrip_slash s +:+ slashes n.
Proof.
  induction s as [|c s [n IH]]; [by exists 0|]. simpl.
  destruct (rstrip_slash s) as [|c' r] eqn:Hr.
  - destruct (Ascii.eqb_spec c "/") as [->|Hc].
    + exists (S n). by rewrite IH at 1.
    + exists n. by rewrite IH at 1.
  - exists n. by rewrite IH at 1.
Qed.

Lemma rstrip_slash_last (s t : string) (c : ascii) :
  rstrip_slash s = t +:+ String c EmptyString → c ≠ "/"%char.
Proof.
  revert t. induction s as [|c' s IH]; intros t; simpl.
  - by destruct t.
  - destruct (rstrip_slash s) as [|c'' r] eqn:Hr.
    + destruct (Ascii.eqb_spec c' "/") as [->|Hc']; [by destruct t|].
      destruct t as [|? [|??]]; [|done..]. by intros [= <-].
    + destruct t as [|c3 t]; [done|]. rewrite app_cons. intros [= _ Ht].
      by eapply IH.
Qed.

Lemma rstrip_slash_idemp (s : string) : rstrip_slash (rstrip_slash s) = rstrip_slash s.
Proof.
  induction s as [|c s IH]; simpl; [done|].
  destruct (rstrip_slash s) as [|c' r] eqn:Hr.
  - destruct (Ascii.eqb_spec c "/") as [->|Hc]; [done|]. simpl.
    by destruct (Ascii.eqb_spec c "/").
  - simpl in IH. simpl. by rewrite IH.
Qed.

(** X20. The client keeps the address it is given without its trailing
    slashes, however many: the base address does not end with a slash, the
    address given is the base address followed by slashes only, and a base
    address given again is kept as it is. The addresses the client requests
    are this base followed by a path that starts with a slash. *)
Theorem new_client_base_url (url : string) (verify : bool) (t : Z) :
  let c := new_client url verify t in
  (∃ n, url = base_url c +:+ slashes n)
  ∧ (∀ s, base_url c ≠ s +:+ "/")
  ∧ base_url (new_client (base_url c) verify t) = base_url c
  ∧ ∀ site_code,
      sites_url c = base_url c +:+ "/api/self/sites"
      ∧ wlanconf_url c site_code = base_url c +:+ "/api/s/" +:+ site_code +:+ "/rest/wlanconf"
      ∧ alluser_url c site_code = base_url c +:+ "/api/s/" +:+ site_code +:+ "/stat/alluser".
Proof.
  cbv zeta. simpl. split_and!.
  - apply rstrip_slash_app.
  - intros s Hs. by apply rstrip_slash_last in Hs.
  - apply rstrip_slash_idemp.
  - done.
Qed.

(** ** The legacy site resolution *)



(** ** A response without data *)

Lemma sorted_keys_empty {V} : sorted_keys (∅ : gmap string V) = [].
Proof. unfold sorted_keys. by rewrite map_to_list_empty. Qed.

(** X22. A response that is an object without the field [data] is read as
    an empty collection, not as an error: [fetch_sites] and [fetch_wlans]
    return the empty list, [fetch_known_devices] the empty mapping, and
    [fetch_mac_filter_details] raises its not-found error with nothing to
    list. *)
Theorem missing_data_is_empty (w : World) (url : string) (status : nat) (body : pydict) :
  http_get w url = Response status (Some (PDict body)) →
  ¬ (400 ≤ status < 600) →
  dict_lookup "data" body = None →
  get_data w url = Ok (PList [])
  ∧ (∀ c, url = sites_url c → fetch_sites w c = Ok [])
  ∧ (∀ c site_code, url = wlanconf_url c site_code →
       fetch_wlans w c site_code = Ok []
       ∧ ∀ wlan_name, fetch_mac_filter_details w c site_code wlan_name
                      = Raise (ValueError (wlan_not_found wlan_name [])))
  ∧ (∀ c site_code, url = alluser_url c site_code →
       fetch_known_devices w c site_code = Ok ∅).
Proof.
  intros Hget Hstatus Hdata.
  assert (get_data w url = Ok (PList [])) as Hempty.
  { unfold get_data, raise_for_status. rewrite Hget.
    assert ((400 <=? status) && (status <? 600) = false) as ->.
    { apply andb_false_iff.
      destruct (Nat.leb_spec 400 status), (Nat.ltb_spec status 600); auto. lia. }
    simpl. unfold dict_get_or. by rewrite Hdata. }
  split_and!; [done|..].
  - intros c ->. unfold fetch_sites. by rewrite Hempty.
  - intros c site_code ->.
    assert (fetch_wlans w c site_code = Ok []) as Hwlans.
    { unfold fetch_wlans. by rewrite Hempty. }
    split; [done|]. intros wlan_name.
    unfold fetch_mac_filter_details, mac_filter_details_of. rewrite Hwlans. simpl.
    unfold wlan_lookup. simpl. by rewrite lookup_empty, sorted_keys_empty.
  - intros c site_code ->. unfold fetch_known_devices. by rewrite Hempty.
Qed.

Lemma missing_data_is_empty_witness :
  get_data (with_answer demo_world "https://ctl:8443/api/self/sites"
              (Response 200 (Some (PDict [("meta", PDict [("rc", PStr "ok")])]))))
           "https://ctl:8443/api/self/sites"
  = Ok (PList []).
Proof.
  eapply (missing_data_is_empty _ _ 200 [("meta", PDict [("rc", PStr "ok")])]).
  - vm_compute. reflexivity.
  - lia.
  - reflexivity.
Defined.

(** ** The report *)

(** X23. The report of [run_cli]. When the login and the fetch succeed and
    the filter list of the profile holds strings, [run_cli] returns 0 and
    reports every address of the list, once and in the order of the list,
    upper-cased and with its label: as the table without [--out], and to
    [export_results], followed by the notice with the number of addresses,
    with [--out]. *)
Theorem run_cli_report (w : World) (args : Args) (wlan : WlanProfile)
    (K : gmap string string) (M : list string) :
  ensure_cli_args args = Ok () →
  cli_fetch w args = Ok (wlan, K) →
  mac_filter_list wlan = PStr <$> M →
  let labelled := (λ mac, (upper mac, default "Unknown" (K !! upper mac))) <$> M in
  (given (arg_out args) = false → run_cli w args = (print_table labelled, Ok 0%Z))
  ∧ (given (arg_out args) = true →
     export_results w labelled (default EmptyString (arg_out args)) (arg_format args)
       = Ok () →
     run_cli w args
     = ([Line ("Exported " +:+ pretty (length M) +:+ " entries to "
               +:+ default EmptyString (arg_out args) +:+ " ("
               +:+ arg_format args +:+ ").")], Ok 0%Z)).
Proof.
  intros Hargs Hfetch Hmacs. cbv zeta.
  rewrite (run_cli_unfold w args Hargs), Hfetch, Hmacs, label_mac_addresses_strings.
  split.
  - by intros ->.
  - intros -> Hexport. unfold label_of in *. rewrite Hexport. by rewrite length_fmap.
Qed.

Lemma run_cli_report_witness :
  run_cli demo_world (demo_args "default" "Office" None)
  = (print_table [("AA:BB:CC:DD:EE:FF", "laptop"); ("77:88:99:AA:BB:CC", "Unknown")],
     Ok 0%Z).
Proof.
  edestruct (run_cli_report demo_world (demo_args "default" "Office" None)
               {| name := "Office";
                  mac_filter_list := [PStr "aa:bb:cc:dd:ee:ff"; PStr "77:88:99:aa:bb:cc"] |}
               {[ "AA:BB:CC:DD:EE:FF" := "laptop" ]}
               ["aa:bb:cc:dd:ee:ff"; "77:88:99:aa:bb:cc"]) as [Hrun _].
  - reflexivity.
  - vm_compute. reflexivity.
  - reflexivity.
  - rewrite Hrun by reflexivity. vm_compute. reflexivity.
Defined.

(** ** Which record is the WLAN *)

(** X24. With two records of one name in the response,
    [fetch_mac_filter_details] returns the profile of the last of them: the
    profile it returns is the last, in the order of the response, whose
    name is exactly the name asked for. *)
Theorem fetch_mac_filter_details_last_record (w : World) (c : UniFiClient)
    (site_code wlan_name : string) (wlan : WlanProfile) (K : gmap string string) :
  fetch_mac_filter_details w c site_code wlan_name = Ok (wlan, K) →
  ∃ data items profiles,
    get_data w (wlanconf_url c site_code) = Ok data ∧ py_iter data = Ok items
    ∧ Forall2 (λ item p, wlan_fields item = Ok (PStr (name p), mac_filter_list p))
              items profiles
    ∧ last (filter (λ p, name p = wlan_name) profiles) = Some wlan.
Proof.
  unfold fetch_mac_filter_details, mac_filter_details_of, fetch_wlans, wlans_of_data.
  intros (wlans & (data & Hdata & (items & Hitems & (raw & Hraw
          & (unsorted & Hchk & [= <-])%bind_Ok)%bind_Ok)%bind_Ok)%bind_Ok
          & Hrest)%bind_Ok.
  rewrite wlan_lookup_last in Hrest.
  destruct (last _) as [p|] eqn:Hlast; [|done].
  apply bind_Ok in Hrest as (K' & _ & [= -> _]).
  apply mapM_Ok_Forall2 in Hraw, Hchk.
  exists data, items, unsorted. split_and!; [done..| |].
  - clear Hitems Hlast. revert unsorted Hchk.
    induction Hraw as [|item f items raw Hf _ IH]; intros unsorted Hchk;
      inversion Hchk as [|? q ? unsorted' Hq Hchk']; simplify_eq; constructor.
    + apply wlan_checked_Ok in Hq as ->. done.
    + by apply IH.
  - rewrite <-Hlast. f_equal.
    rewrite <-(list_filter_filter_l (λ p, name p = wlan_name)
                 (λ p, lower (name p) = lower wlan_name) unsorted)
      by (by intros p ->).
    rewrite <-(list_filter_filter_l (λ p, name p = wlan_name)
                 (λ p, lower (name p) = lower wlan_name) (sort_by _ unsorted))
      by (by intros p ->).
    by rewrite (sort_by_stable (λ p, lower (name p))).
Qed.

Lemma fetch_mac_filter_details_last_record_witness :
  ∃ profiles,
    last (filter (λ p, name p = "Guest") profiles)
    = Some {| name := "Guest"; mac_filter_list := [] |}.
Proof.
  edestruct (fetch_mac_filter_details_last_record demo_world
               (new_client "https://ctl:8443" false 10) "default" "Guest"
               {| name := "Guest"; mac_filter_list := [] |}
               {[ "AA:BB:CC:DD:EE:FF" := "laptop" ]})
    as (data & items & profiles & _ & _ & _ & Hlast); [vm_compute; reflexivity|].
  by exists profiles.
Defined.

(** ** The legacy script *)

Lemma py_eq_str_true (v : pyval) (s : string) : py_eq_str v s = true ↔ v = PStr s.
Proof.
  destruct v as [| | |t| |]; simpl; try (split; [done|by intros [=]]).
  rewrite String.eqb_eq. split; [by intros ->|by intros [= ->]].
Qed.

(** X25. The legacy script takes the first record of that name, where the
    packaged client takes the last: its search returns the first record, in
    the order of the response, whose [name] is the string asked for, and
    stops there, so that nothing after it is looked at; it finds nothing
    exactly when every record is an object of another name; it raises
    [AttributeError] when a record that is no object comes before any
    match. *)
Theorem old_find_wlan_first (wlans : list pyval) (wlan : string) :
  match old_find_wlan wlans wlan with
  | Ok (Some d) =>
      ∃ pre post, wlans = pre ++ PDict d :: post ∧ dict_get d "name" = PStr wlan
                  ∧ Forall (other_name wlan) pre
  | Ok None => Forall (other_name wlan) wlans
  | Raise e =>
      e = AttributeError
      ∧ ∃ pre v post, wlans = pre ++ v :: post ∧ Forall (other_name wlan) pre
                      ∧ ∀ d, v ≠ PDict d
  end.
Proof.
  induction wlans as [|v wlans IH]; simpl; [done|].
  destruct v as [| | | | |d]; simpl;
    try (split; [done|]; eexists [], _, wlans; by split_and!).
  destruct (py_eq_str (dict_get d "name") wlan) eqn:Heq.
  - apply py_eq_str_true in Heq. by exists [], wlans.
  - assert (other_name wlan (PDict d)) as Hd.
    { exists d. split; [done|]. intros H%py_eq_str_true. by rewrite H in Heq. }
    destruct (old_find_wlan wlans wlan) as [[d'|]|e].
    + destruct IH as (pre & post & -> & Hname & Hpre).
      exists (PDict d :: pre), post. split_and!; [done..|]. by constructor.
    + by constructor.
    + destruct IH as (-> & pre & v & post & -> & Hpre & Hv). split; [done|].
      exists (PDict d :: pre), v, post. split_and!; [done| |done]. by constructor.
Qed.

(** X26. For a WLAN of the legacy script whose [mac_filter_list] is
    missing, null or empty the script prints that no address was found and
    exits with status 0; [export_list] is not called, whatever it would do,
    and no file is written. *)
Theorem old_main_empty_list (export_list : pyval → string → string → result unit)
    (w : World) (args : OldArgs) (site_code : string) (wlans : list pyval)
    (target : pydict) :
  old_login w (old_url args) (old_user args)
    (if given (old_password args) then default EmptyString (old_password args)
     else getpass w) = Ok () →
  resolve_site_code w (old_url args) (old_site args) = Ok site_code →
  old_wlan_records w (old_url args) site_code = Ok wlans →
  old_find_wlan wlans (old_wlan args) = Ok (Some target) →
  truthy (dict_get_or target "mac_filter_list" (PList [])) = false →
  old_main export_list w args
  = ([OldLine ("No MAC addresses found for WLAN '" +:+ old_wlan args +:+ "'.")], Ok 0%Z).
Proof.
  intros Hlogin Hsite Hwlans Hfind Hmacs. unfold old_main, old_export.
  by rewrite Hlogin, Hsite, Hwlans, Hfind, Hmacs.
Qed.

Lemma old_main_empty_list_witness :
  old_main (λ _ _ _, Raise OSError) demo_world (demo_old_args "Main Office" "Lab")
  = ([OldLine "No MAC addresses found for WLAN 'Lab'."], Ok 0%Z).
Proof.
  apply (old_main_empty_list _ demo_world (demo_old_args "Main Office" "Lab") "default"
           demo_wlan_records [("name", PStr "Lab"); ("mac_filter_list", PNone)]).
  - reflexivity.
  - vm_compute. reflexivity.
  - vm_compute. reflexivity.
  - reflexivity.
  - reflexivity.
Defined.

(** X27. The legacy script does not survive a site record without [desc],
    which [fetch_sites] of the packaged client reads as a site described by
    its code: when the login succeeds and the first site of the response
    lacks the field, the [KeyError] of [site["desc"]] escapes from [main],
    whatever the hint; nothing is printed and nothing is exported. *)
Theorem old_main_site_without_desc (export_list : pyval → string → string → result unit)
    (w : World) (args : OldArgs) (status : nat) (body : pydict) (d : pydict)
    (sites : list pyval) :
  old_login w (old_url args) (old_user args)
    (if given (old_password args) then default EmptyString (old_password args)
     else getpass w) = Ok () →
  http_get w (old_url args +:+ "/api/self/sites") = Response status (Some (PDict body)) →
  ¬ (400 ≤ status < 600) →
  dict_lookup "data" body = Some (PList (PDict d :: sites)) →
  dict_lookup "desc" d = None →
  old_main export_list w args = ([], Raise (KeyError "desc"))
  ∧ ∃ nm, site_fields (PDict d) = Ok (nm, nm).
Proof.
  intros Hlogin Hget Hstatus Hdata Hdesc. split.
  - unfold old_main. rewrite Hlogin.
    assert (resolve_site_code w (old_url args) (old_site args) = Raise (KeyError "desc"))
      as ->; [|done].
    unfold resolve_site_code, raise_for_status. rewrite Hget.
    assert ((400 <=? status) && (status <? 600) = false) as ->.
    { apply andb_false_iff.
      destruct (Nat.leb_spec 400 status), (Nat.ltb_spec status 600); auto. lia. }
    simpl. rewrite Hdata. simpl. by rewrite Hdesc.
  - eexists. unfold site_fields, py_or, dict_get. simpl. by rewrite Hdesc.
Qed.

Lemma old_main_site_without_desc_witness :
  old_main (λ _ _ _, Ok ())
    (with_answer demo_world "https://ctl:8443/api/self/sites"
       (Response 200 (Some (PDict [("data", PList [PDict [("name", PStr "default")]])]))))
    (demo_old_args "default" "Office")
  = ([], Raise (KeyError "desc")).
Proof.
  eapply (old_main_site_without_desc _ _ (demo_old_args "default" "Office") 200
            [("data", PList [PDict [("name", PStr "default")]])]
            [("name", PStr "default")] []).
  - reflexivity.
  - vm_compute. reflexivity.
  - lia.
  - reflexivity.
  - reflexivity.
Defined.
